(** * Istanbul BFT core: message dispatch, timeouts, quorum and wire encoding

    A shallow embedding of [consensus/istanbul/core/handler.go] together
    with the collaborators it consumes.  Go's [*big.Int] is [Z], a nil
    pointer is [None], [[]byte] is [list byte], and a Go [panic] is an
    explicit outcome.  Logging has no effect on the engine and is left
    out. *)

From Stdlib Require Import ZArith NArith List Bool Lia.
From Stdlib Require Import Init.Byte Strings.Byte.
Import ListNotations.

Open Scope Z_scope.

(** ** Bytes, addresses and hashes *)

Definition bytes := list byte.

Fixpoint bytes_eqb (x y : bytes) : bool :=
  match x, y with
  | [], [] => true
  | a :: x', b :: y' => Byte.eqb a b && bytes_eqb x' y'
  | _, _ => false
  end.

(** [common.Address] (20 bytes) and [common.Hash] (32 bytes). *)
Definition Address := bytes.
Definition Hash := bytes.

(** [==] on [common.Address]. *)
Definition address_eqb : Address -> Address -> bool := bytes_eqb.

(** [x.Cmp(y)] on [*big.Int]: -1, 0 or +1. *)
Definition bigCmp (x y : Z) : Z :=
  match x ?= y with
  | Lt => -1
  | Eq => 0
  | Gt => 1
  end.

(** [x.Uint64()] on [*big.Int]: the low 64 bits of the magnitude. *)
Definition Uint64 (x : Z) : Z := Z.abs x mod 2 ^ 64.

(** Subtraction on [uint64], wrapping around. *)
Definition uint64_sub (x y : Z) : Z := (x - y) mod 2 ^ 64.

(** ** Package istanbul: views, messages, validator sets *)

Module istanbul.

(** [type View struct { Round, Sequence *big.Int }]. *)
Record View := mkView {
  Round : option Z;
  Sequence : option Z
}.

(** Modelled from the spec: [View.Cmp] is missing from the sources; the
    spec orders views by lexicographic comparison of (Sequence, Round).
    A nil field is a nil dereference, rendered as [None]. *)
Definition Cmp (v y : View) : option Z :=
  match Sequence v, Round v, Sequence y, Round y with
  | Some vs, Some vr, Some ys, Some yr =>
      Some (if bigCmp vs ys =? 0 then bigCmp vr yr else bigCmp vs ys)
  | _, _, _, _ => None
  end.

Record Proposal := mkProposal {
  Number : Z;
  ProposalHash : Hash
}.

Record Preprepare := mkPreprepare {
  PreprepareView : option View;
  PreprepareProposal : Proposal
}.

Record Subject := mkSubject {
  SubjectView : option View;
  Digest : Hash
}.

Record CommittedSubject := mkCommittedSubject {
  CommittedSubject_Subject : Subject;
  CommittedSeal : bytes
}.

Record RoundChange := mkRoundChange {
  RoundChangeView : option View
}.

(** The message codes the handler switches on; any other decoded code
    is [MsgUnknown]. *)
Inductive MsgCode :=
| MsgPreprepare
| MsgPrepare
| MsgCommit
| MsgRoundChange
| MsgUnknown (raw : Z).

Definition MsgCode_eqb (a b : MsgCode) : bool :=
  match a, b with
  | MsgPreprepare, MsgPreprepare => true
  | MsgPrepare, MsgPrepare => true
  | MsgCommit, MsgCommit => true
  | MsgRoundChange, MsgRoundChange => true
  | MsgUnknown x, MsgUnknown y => x =? y
  | _, _ => false
  end.

(** The decoded inner message: [FromPayload] fills the typed field that
    the code selects, so code and typed accessor always agree. *)
Inductive MsgBody :=
| BPreprepare (p : Preprepare)
| BPrepare (s : Subject)
| BCommit (cs : CommittedSubject)
| BRoundChange (rc : RoundChange)
| BUnknown (raw : Z) (v : option View).

Record Message := mkMessage {
  MsgAddress : Address;
  Body : MsgBody;
  Signature : bytes
}.

Definition Code (m : Message) : MsgCode :=
  match Body m with
  | BPreprepare _ => MsgPreprepare
  | BPrepare _ => MsgPrepare
  | BCommit _ => MsgCommit
  | BRoundChange _ => MsgRoundChange
  | BUnknown raw _ => MsgUnknown raw
  end.

(** Modelled from the spec: [Message.View] is missing from the sources;
    the spec gives every message a view, here the view carried by the
    typed inner message. *)
Definition MsgView (m : Message) : option View :=
  match Body m with
  | BPreprepare p => PreprepareView p
  | BPrepare s => SubjectView s
  | BCommit cs => SubjectView (CommittedSubject_Subject cs)
  | BRoundChange rc => RoundChangeView rc
  | BUnknown _ v => v
  end.

Record Validator := mkValidator {
  ValidatorAddress : Address
}.

(** Modelled from the spec: the validator set implementation is missing
    from the sources; the spec has an ordered sequence of validators
    with [contains], [indexOf] and [quorumSize]. *)
Definition ValidatorSet := list Validator.

Fixpoint GetByAddress_from (i : Z) (vs : ValidatorSet) (a : Address)
  : Z * option Validator :=
  match vs with
  | [] => (-1, None)
  | v :: rest =>
      if address_eqb (ValidatorAddress v) a then (i, Some v)
      else GetByAddress_from (i + 1) rest a
  end.

(** [GetByAddress]: index and validator, or (-1, nil). *)
Definition GetByAddress (vs : ValidatorSet) (a : Address)
  : Z * option Validator :=
  GetByAddress_from 0 vs a.

Definition Size (vs : ValidatorSet) : Z := Z.of_nat (length vs).

(** Modelled from the spec: quorum size = ceiling of 2n/3 where n is the
    size of the set; the quorum function itself is missing from the
    sources.  The ceiling of a/b for positive b is -((-a)/b) with floor
    division. *)
Definition quorumSize (vs : ValidatorSet) : Z :=
  - ((- (2 * Size vs)) / 3).

Inductive error :=
| ErrUnauthorizedAddress
| errInvalidMessage
| errOldMessage
| errFutureMessage
| ErrOther (code : Z).

End istanbul.

(** ** Engine states *)

(** [type State uint64] of package core. *)
Inductive State :=
| StateAcceptRequest
| StatePreprepared
| StatePrepared
| StateCommitted
| StateWaitingForNewRound.

Definition State_eqb (a b : State) : bool :=
  match a, b with
  | StateAcceptRequest, StateAcceptRequest => true
  | StatePreprepared, StatePreprepared => true
  | StatePrepared, StatePrepared => true
  | StateCommitted, StateCommitted => true
  | StateWaitingForNewRound, StateWaitingForNewRound => true
  | _, _ => false
  end.

(** ** Backlog *)

Module Backlog.
Import istanbul.

(** Modelled from the spec: the backlog implementation is missing from
    the sources.  The spec's contract is [store(message)] and
    [updateState(view, engineState)], which replays the buffered
    messages whose view has become current, in view order and per view
    in arrival order.  A buffered message counts as current once the
    engine's Sequence matches the message's Sequence (the spec: a
    message for a future Sequence is replayed once the engine's
    Sequence advances to match); whether the replayed message is then
    processed or buffered again is decided by [handleMsg].  The
    backlog is the list of buffered messages in arrival order.  The
    bound on what is kept per sender for stale rounds is not modelled: it
    concerns rounds the engine has left behind, not messages ahead of
    it. *)
Definition t := list Message.

(** Modelled from the spec: [store(message)] of the missing backlog; the
    message is buffered behind the earlier arrivals. *)
Definition store (msg : Message) (b : t) : t := b ++ [msg].

Definition msgSequence (m : Message) : option Z :=
  match MsgView m with
  | Some v => Sequence v
  | None => None
  end.

Definition msgRound (m : Message) : option Z :=
  match MsgView m with
  | Some v => Round v
  | None => None
  end.

Definition isCurrent (seq : Z) (m : Message) : bool :=
  match msgSequence m with
  | Some s => s =? seq
  | None => false
  end.

Definition isAhead (seq : Z) (m : Message) : bool :=
  match msgSequence m with
  | Some s => seq <? s
  | None => false
  end.

Definition roundLeb (a b : Message) : bool :=
  match msgRound a, msgRound b with
  | Some x, Some y => x <=? y
  | None, _ => true
  | Some _, None => false
  end.

(** Insertion by round; a message goes in front of the first buffered
    message of a strictly greater round, so equal rounds keep their
    arrival order. *)
Fixpoint insertByRound (m : Message) (l : list Message) : list Message :=
  match l with
  | [] => [m]
  | x :: rest =>
      if roundLeb m x then m :: x :: rest
      else x :: insertByRound m rest
  end.

Fixpoint viewOrder (l : list Message) : list Message :=
  match l with
  | [] => []
  | x :: rest => insertByRound x (viewOrder rest)
  end.

(** Modelled from the spec: [updateState(view, engineState)] of the
    missing backlog.  It gives the messages to replay, in view order and
    per view in arrival order, and the backlog that remains; messages of
    earlier sequences are discarded. *)
Definition updateState (view : View) (state : State) (b : t)
  : list Message * t :=
  match Sequence view with
  | Some seq => (viewOrder (filter (isCurrent seq) b), filter (isAhead seq) b)
  | None => ([], b)
  end.

End Backlog.

(** ** Package core: the engine of handler.go *)

Module Engine.
Import istanbul.

(** The round state as the handler reads it through [c.current]. *)
Record RoundState := mkRoundState {
  state : State;
  round : Z;
  desiredRound : Z;
  sequence : Z;
  validatorSet : ValidatorSet
}.

(** [type core struct]: the fields the handler touches; [world] stands
    for the rest of the engine and its backend (timers, round-change
    set, messages handed over for broadcast, the chain). *)
Record core (W : Type) := mkCore {
  current : RoundState;
  address : Address;
  backlog : Backlog.t;
  world : W
}.
Arguments mkCore {W} _ _ _ _.
Arguments current {W} _.
Arguments address {W} _.
Arguments backlog {W} _.
Arguments world {W} _.

(** A Go panic: the round assertion of [handleMsg], or a nil
    dereference. *)
Inductive panic :=
| RoundMismatch (cur des : Z)
| NilDereference.

(** What a call does: return an error value (nil is [None]) or panic. *)
Inductive outcome :=
| Return (err : option error)
| Panic (p : panic).

Record Request := mkRequest {
  RequestProposal : Proposal
}.

(** The functions of the engine and of its backend that handler.go
    calls and that live in other files. *)
Record Collaborators (W : Type) := mkCollaborators {
  FromPayload : bytes -> Message + error;
  Payload : Message -> bytes + error;
  ParentBlockValidators : W -> Proposal -> ValidatorSet;
  AuthorForBlock : W -> Z -> Address;
  selectProposer : ValidatorSet -> Address -> Z -> Validator;
  HasBlock : W -> Hash -> Z -> bool;
  LastSubject : W -> Subject + error;
  handleCheckedCommitForPreviousSequence :
    Message -> CommittedSubject -> core W -> outcome * core W;
  handlePreprepare : Message -> core W -> outcome * core W;
  handlePrepare : Message -> core W -> outcome * core W;
  handleCommit : Message -> core W -> outcome * core W;
  handleRoundChange : Message -> core W -> outcome * core W;
  waitForDesiredRound : Z -> core W -> outcome * core W;
  resendRoundChangeMessage : core W -> core W;
  handleRequest : Request -> core W -> outcome * core W;
  storeRequestMsg : Request -> core W -> core W;
  handleFinalCommitted : core W -> outcome * core W
}.
Arguments FromPayload {W} _ _.
Arguments Payload {W} _ _.
Arguments ParentBlockValidators {W} _ _ _.
Arguments AuthorForBlock {W} _ _ _.
Arguments selectProposer {W} _ _ _ _.
Arguments HasBlock {W} _ _ _ _.
Arguments LastSubject {W} _ _.
Arguments handleCheckedCommitForPreviousSequence {W} _ _ _ _.
Arguments handlePreprepare {W} _ _ _.
Arguments handlePrepare {W} _ _ _.
Arguments handleCommit {W} _ _ _.
Arguments handleRoundChange {W} _ _ _.
Arguments waitForDesiredRound {W} _ _ _.
Arguments resendRoundChangeMessage {W} _ _.
Arguments handleRequest {W} _ _ _.
Arguments storeRequestMsg {W} _ _ _.
Arguments handleFinalCommitted {W} _ _.

Section Handler.
Context {W : Type} (env : Collaborators W).

(** [c.backlog.store(msg)]. *)
Definition backlogStore (msg : Message) (c : core W) : core W :=
  mkCore (current c) (address c) (Backlog.store msg (backlog c)) (world c).

Definition handleMsg (payload : bytes) (c : core W) : outcome * core W :=
  (* Decode message and check its signature *)
  match FromPayload env payload with
  | inr err => (Return (Some err), c)
  | inl msg =>
    (* Only accept message if the address is valid *)
    match snd (GetByAddress (validatorSet (current c)) (MsgAddress msg)) with
    | None => (Return (Some ErrUnauthorizedAddress), c)
    | Some _ =>
      match MsgView msg with
      | None => (Return (Some errInvalidMessage), c)
      | Some v =>
        match Sequence v, Round v with
        | Some vSequence, Some vRound =>
          let desiredView :=
            mkView (Some (desiredRound (current c)))
                   (Some (sequence (current c))) in
          match Cmp v desiredView with
          | None => (Panic NilDereference, c)
          | Some cmp =>
            (* Prior views are always old. *)
            if cmp <? 0 then
              match Body msg with
              | BPreprepare preprepare =>
                (* preprepare.View is the view v of the message *)
                let proposal := PreprepareProposal preprepare in
                let valSet := ParentBlockValidators env (world c) proposal in
                let prevBlockAuthor :=
                  AuthorForBlock env (world c)
                    (uint64_sub (Uint64 (Number proposal)) 1) in
                let proposer :=
                  selectProposer env valSet prevBlockAuthor (Uint64 vRound) in
                if address_eqb (ValidatorAddress proposer) (MsgAddress msg)
                   && HasBlock env (world c) (ProposalHash proposal)
                               (Number proposal)
                then (Return None, c)
                else (Return (Some errOldMessage), c)
              | BCommit commit =>
                match LastSubject env (world c) with
                | inr err => (Return (Some err), c)
                | inl lastSubject =>
                  match SubjectView lastSubject with
                  | None => (Panic NilDereference, c)
                  | Some lastView =>
                    (* commit.Subject.View is the view v of the message *)
                    match Cmp v lastView, Sequence lastView with
                    | Some k, Some lastSequence =>
                      if negb (k =? 0) then (Return (Some errOldMessage), c)
                      else if bigCmp lastSequence 0 =? 0
                      then (Return (Some errOldMessage), c)
                      else handleCheckedCommitForPreviousSequence
                             env msg commit c
                    | _, _ => (Panic NilDereference, c)
                    end
                  end
                end
              | _ => (Return (Some errOldMessage), c)
              end
            (* Future seqs are always future. *)
            else if bigCmp vSequence (sequence (current c)) >? 0 then
              (Return (Some errFutureMessage),
               if negb (address_eqb (MsgAddress msg) (address c))
               then backlogStore msg c else c)
            (* We will never do consensus on any round less than
               desiredRound. *)
            else if bigCmp (round (current c)) (desiredRound (current c)) >? 0
            then (Panic (RoundMismatch (round (current c))
                                       (desiredRound (current c))), c)
            else
              let s := state (current c) in
              if (State_eqb s StateWaitingForNewRound
                  || State_eqb s StateAcceptRequest)
                 && (MsgCode_eqb (Code msg) MsgCommit
                     || MsgCode_eqb (Code msg) MsgPrepare)
              then
                (Return (Some errFutureMessage),
                 if negb (address_eqb (MsgAddress msg) (address c))
                 then backlogStore msg c else c)
              else if negb (MsgCode_eqb (Code msg) MsgRoundChange)
                      && (bigCmp vRound (desiredRound (current c)) >? 0)
              then
                (Return (Some errFutureMessage),
                 if negb (address_eqb (MsgAddress msg) (address c))
                 then backlogStore msg c else c)
              else
                match Code msg with
                | MsgPreprepare => handlePreprepare env msg c
                | MsgPrepare => handlePrepare env msg c
                | MsgCommit => handleCommit env msg c
                | MsgRoundChange => handleRoundChange env msg c
                | MsgUnknown _ => (Return (Some errInvalidMessage), c)
                end
          end
        | _, _ => (Return (Some errInvalidMessage), c)
        end
      end
    end
  end.

Definition handleTimeoutAndMoveToNextRound (timedOutView : View)
    (c : core W) : outcome * core W :=
  match Sequence timedOutView, Round timedOutView with
  | Some toSequence, Some toRound =>
    (* Avoid races where message is enqueued then a later event
       advances sequence or desired round. *)
    if negb (bigCmp (sequence (current c)) toSequence =? 0)
       || negb (bigCmp (desiredRound (current c)) toRound =? 0)
    then (Return None, c)
    else
      let nextRound := toRound + 1 in
      waitForDesiredRound env nextRound c
  | _, _ => (Panic NilDereference, c)
  end.

Definition handleResendRoundChangeEvent (desiredView : View)
    (c : core W) : outcome * core W :=
  match Sequence desiredView, Round desiredView with
  | Some dvSequence, Some dvRound =>
    if negb (bigCmp (sequence (current c)) dvSequence =? 0)
       || negb (bigCmp (desiredRound (current c)) dvRound =? 0)
    then (Return None, c)
    else (Return None, resendRoundChangeMessage env c)
  | _, _ => (Panic NilDereference, c)
  end.

(** The events the loop of [handleEvents] selects on, in the order in
    which the single consumer receives them. *)
Inductive Event :=
| RequestEvent (p : Proposal)
| MessageEvent (payload : bytes)
| backlogEvent (msg : Message)
| timeoutAndMoveToNextRoundEvent (view : View)
| resendRoundChangeEvent (view : View)
| FinalCommittedEvent
| ChannelClosed.

(** One turn of the loop.  An error returned by a handler is logged
    and dropped; nothing in the loop recovers a panic. *)
Definition handleEvent (ev : Event) (c : core W) : outcome * core W :=
  match ev with
  | RequestEvent p =>
    let r := mkRequest p in
    match handleRequest env r c with
    | (Return (Some errFutureMessage), c') =>
        (Return None, storeRequestMsg env r c')
    | (Return _, c') => (Return None, c')
    | (Panic p, c') => (Panic p, c')
    end
  | MessageEvent payload =>
    match handleMsg payload c with
    | (Return _, c') => (Return None, c')
    | (Panic p, c') => (Panic p, c')
    end
  | backlogEvent msg =>
    match Payload env msg with
    | inr _ => (Return None, c)
    | inl payload =>
      match handleMsg payload c with
      | (Return _, c') => (Return None, c')
      | (Panic p, c') => (Panic p, c')
      end
    end
  | timeoutAndMoveToNextRoundEvent view =>
    match handleTimeoutAndMoveToNextRound view c with
    | (Return _, c') => (Return None, c')
    | (Panic p, c') => (Panic p, c')
    end
  | resendRoundChangeEvent view =>
    match handleResendRoundChangeEvent view c with
    | (Return _, c') => (Return None, c')
    | (Panic p, c') => (Panic p, c')
    end
  | FinalCommittedEvent =>
    match handleFinalCommitted env c with
    | (Return _, c') => (Return None, c')
    | (Panic p, c') => (Panic p, c')
    end
  | ChannelClosed => (Return None, c)
  end.

(** [handleEvents]: the loop runs until a channel is closed; a panic
    of a handler leaves the loop, and with it the goroutine,
    unrecovered. *)
Fixpoint handleEvents (evs : list Event) (c : core W) : outcome * core W :=
  match evs with
  | [] => (Return None, c)
  | ChannelClosed :: _ => (Return None, c)
  | ev :: rest =>
    match handleEvent ev c with
    | (Return _, c') => handleEvents rest c'
    | (Panic p, c') => (Panic p, c')
    end
  end.

End Handler.

End Engine.

(** ** Round state transitions *)

Module Transitions.
Import istanbul Engine.

(** Modelled from the spec: the round state implementation is missing
    from the sources.  A round state is created when the engine starts
    on a Sequence: phase AcceptRequest, round and desired round 0. *)
Definition newRoundState (seq : Z) (vs : ValidatorSet) : RoundState :=
  mkRoundState StateAcceptRequest 0 0 seq vs.

Definition withState (s : State) (rs : RoundState) : RoundState :=
  mkRoundState s (round rs) (desiredRound rs) (sequence rs) (validatorSet rs).

(** The transitions of the round state machine. *)
Inductive Transition :=
| AcceptPreprepare
| PrepareQuorum
| CommitQuorum
| RoundChangeTrigger
| StartNewRound (reproposal : bool)
| NextSequence (vs : ValidatorSet).

(** Modelled from the spec: the state machine of the Round State.
    AcceptRequest -> Preprepared -> Prepared -> Committed on a valid
    proposal and on the two quorums; any state goes to
    WaitingForNewRound(desiredRound+1) on a timeout or round-change
    trigger; WaitingForNewRound goes to AcceptRequest(desiredRound), or
    to Preprepared when an already prepared block is proposed again;
    Committed ends the height and the engine starts on the next
    Sequence.  A transition that the current phase does not allow is
    [None]. *)
Definition apply (t : Transition) (rs : RoundState) : option RoundState :=
  match t, state rs with
  | AcceptPreprepare, StateAcceptRequest => Some (withState StatePreprepared rs)
  | PrepareQuorum, StatePreprepared => Some (withState StatePrepared rs)
  | CommitQuorum, StatePrepared => Some (withState StateCommitted rs)
  | RoundChangeTrigger, _ =>
      Some (mkRoundState StateWaitingForNewRound (round rs)
              (desiredRound rs + 1) (sequence rs) (validatorSet rs))
  | StartNewRound reproposal, StateWaitingForNewRound =>
      Some (mkRoundState
              (if reproposal then StatePreprepared else StateAcceptRequest)
              (desiredRound rs) (desiredRound rs)
              (sequence rs) (validatorSet rs))
  | NextSequence vs, StateCommitted => Some (newRoundState (sequence rs + 1) vs)
  | _, _ => None
  end.

Fixpoint run (ts : list Transition) (rs : RoundState) : option RoundState :=
  match ts with
  | [] => Some rs
  | t :: rest =>
      match apply t rs with
      | Some rs' => run rest rs'
      | None => None
      end
  end.

(** The round states an engine can be in: those a run of transitions
    reaches from a fresh round state. *)
Definition reachable (rs : RoundState) : Prop :=
  exists seq vs ts, run ts (newRoundState seq vs) = Some rs.

End Transitions.

(** ** Preconditions of the dispatch, and concrete engines *)

Module Scenario.
Import istanbul Engine.

(** The message has gone through the first steps of [handleMsg]: the
    payload decodes to [msg], the sender is a validator of the current
    set, and the view of the message is (vRound, vSequence) with no nil
    field. *)
Definition accepted {W} (env : Collaborators W) (c : core W)
    (payload : bytes) (msg : Message) (vRound vSequence : Z) : Prop :=
  FromPayload env payload = inl msg /\
  snd (GetByAddress (validatorSet (current c)) (MsgAddress msg)) <> None /\
  MsgView msg = Some (mkView (Some vRound) (Some vSequence)).

(** The view has a nil pointer somewhere. *)
Definition missingView (v : option View) : Prop :=
  v = None \/ exists w, v = Some w /\ (Sequence w = None \/ Round w = None).

(** The three ways in which [handleMsg] classifies a message as a future
    message. *)
Definition futureSequence {W} (c : core W) (vSequence : Z) : Prop :=
  sequence (current c) < vSequence.

Definition earlyVote {W} (c : core W) (msg : Message) : Prop :=
  (state (current c) = StateWaitingForNewRound \/
   state (current c) = StateAcceptRequest) /\
  (Code msg = MsgCommit \/ Code msg = MsgPrepare).

Definition futureRound {W} (c : core W) (msg : Message) (vRound : Z) : Prop :=
  Code msg <> MsgRoundChange /\ desiredRound (current c) < vRound.

Definition classifiedFuture {W} (c : core W) (msg : Message)
    (vRound vSequence : Z) : Prop :=
  futureSequence c vSequence \/
  (vSequence = sequence (current c) /\
   desiredRound (current c) <= vRound /\
   round (current c) <= desiredRound (current c) /\
   (earlyVote c msg \/ futureRound c msg vRound)).

(** The test of the old PRE-PREPARE branch: the sender is the proposer
    selected for the round of the message, and the backend has the
    proposed block. *)
Definition fromProposerOfKnownBlock {W} (env : Collaborators W) (c : core W)
    (msg : Message) (preprepare : Preprepare) (vRound : Z) : bool :=
  let proposal := PreprepareProposal preprepare in
  address_eqb
    (ValidatorAddress
       (selectProposer env
          (ParentBlockValidators env (world c) proposal)
          (AuthorForBlock env (world c) (uint64_sub (Uint64 (Number proposal)) 1))
          (Uint64 vRound)))
    (MsgAddress msg)
  && HasBlock env (world c) (ProposalHash proposal) (Number proposal).

(** Four validators (f = 1) and an engine run by the first of them. *)
Definition addr (b : byte) : Address := repeat b 20.
Definition addrA := addr x01.
Definition addrB := addr x02.
Definition addrC := addr x03.
Definition addrD := addr x04.
Definition stranger := addr xff.

Definition validators : ValidatorSet :=
  [mkValidator addrA; mkValidator addrB; mkValidator addrC; mkValidator addrD].

(** The world of the concrete engine: the handlers that ran, latest
    first. *)
Definition World := list Z.

Definition ran (k : Z) (c : core World) : core World :=
  mkCore (current c) (address c) (backlog c) (k :: world c).

Fixpoint decodeWith (table : list (bytes * Message)) (payload : bytes)
  : Message + error :=
  match table with
  | [] => inr (ErrOther 1)
  | (p, m) :: rest =>
      if bytes_eqb p payload then inl m else decodeWith rest payload
  end.

(** A concrete set of collaborators: payloads decode through a table,
    the proposer rotates with the round, the chain has the blocks up to
    [head], and every handler records that it ran. *)
Definition collaborators (table : list (bytes * Message)) (head : Z)
    (last : Subject + error) : Collaborators World :=
  {| FromPayload := decodeWith table;
     Payload := fun _ => inr (ErrOther 2);
     ParentBlockValidators := fun _ _ => validators;
     AuthorForBlock := fun _ _ => addrA;
     selectProposer := fun vs _ r =>
       nth (Z.to_nat (r mod 4)) vs (mkValidator stranger);
     HasBlock := fun _ _ n => n <=? head;
     LastSubject := fun _ => last;
     handleCheckedCommitForPreviousSequence := fun _ _ c => (Return None, ran 5 c);
     handlePreprepare := fun _ c => (Return None, ran 1 c);
     handlePrepare := fun _ c => (Return None, ran 2 c);
     handleCommit := fun _ c => (Return None, ran 3 c);
     handleRoundChange := fun _ c => (Return None, ran 4 c);
     waitForDesiredRound := fun r c =>
       (Return None,
        mkCore (mkRoundState StateWaitingForNewRound (round (current c)) r
                  (sequence (current c)) (validatorSet (current c)))
               (address c) (backlog c) (world c));
     resendRoundChangeMessage := ran 6;
     handleRequest := fun _ c => (Return None, ran 7 c);
     storeRequestMsg := fun _ c => ran 8 c;
     handleFinalCommitted := fun c => (Return None, ran 9 c) |}.

Definition view (r s : Z) : View := mkView (Some r) (Some s).

Definition engine (st : State) (r dr s : Z) : core World :=
  mkCore (mkRoundState st r dr s validators) addrA [] [].

Definition block (n : Z) : Proposal := mkProposal n (repeat x00 32).

Definition prepareFrom (a : Address) (r s : Z) : Message :=
  mkMessage a (BPrepare (mkSubject (Some (view r s)) (repeat x00 32))) [].

Definition commitFrom (a : Address) (r s : Z) : Message :=
  mkMessage a
    (BCommit (mkCommittedSubject (mkSubject (Some (view r s)) (repeat x00 32)) []))
    [].

Definition preprepareFrom (a : Address) (r s : Z) : Message :=
  mkMessage a (BPreprepare (mkPreprepare (Some (view r s)) (block s))) [].

Definition roundChangeFrom (a : Address) (r s : Z) : Message :=
  mkMessage a (BRoundChange (mkRoundChange (Some (view r s)))) [].

(** The payloads of the concrete runs, and the messages they decode
    to. *)
Definition table : list (bytes * Message) :=
  [ ([x01], prepareFrom addrB 0 6);
    ([x02], prepareFrom addrA 0 6);
    ([x03], prepareFrom addrB 1 5);
    ([x04], prepareFrom addrA 1 5);
    ([x05], roundChangeFrom addrB 3 5);
    ([x06], commitFrom addrB 0 5);
    ([x07], prepareFrom stranger 0 5);
    ([x08], mkMessage addrB (BPrepare (mkSubject None (repeat x00 32))) []);
    ([x09], preprepareFrom addrA 0 4);
    ([x0a], commitFrom addrB 0 4);
    ([x0b], commitFrom addrB 0 0);
    ([x0c], preprepareFrom addrB 0 4);
    ([x0d], prepareFrom addrB 0 5);
    ([x0e], roundChangeFrom addrB 0 5) ].

(** The chain has the blocks up to 4; the backend cannot read the last
    subject. *)
Definition envNoLast : Collaborators World :=
  collaborators table 4 (inr (ErrOther 3)).

(** The chain has the blocks up to [s]; the last subject has view
    (r, s). *)
Definition envLast (r s : Z) : Collaborators World :=
  collaborators table s (inl (mkSubject (Some (view r s)) (repeat x00 32))).

End Scenario.

(** ** Package rlp: the wire encoding *)

Module rlp.

(** Modelled from the spec: the rlp package is missing from the sources.
    The spec asks for a deterministic encoding of structures as ordered
    field sequences; the test names the encoding, RLP.  An item is a
    byte string or a list of items. *)
#[local] Unset Elimination Schemes.
Inductive item :=
| Str (s : bytes)
| List (l : list item).
#[local] Set Elimination Schemes.

Definition byte_to_Z (b : byte) : Z := Z.of_N (Byte.to_N b).

Definition byte_of_Z (z : Z) : byte :=
  match Byte.of_N (Z.to_N z) with
  | Some b => b
  | None => x00
  end.

(** The digits of [n] in base 256, least significant first. *)
Fixpoint le_bytes (fuel : nat) (n : Z) : bytes :=
  match fuel with
  | O => []
  | S fuel' =>
      if n <=? 0 then []
      else byte_of_Z (n mod 256) :: le_bytes fuel' (n / 256)
  end.

(** Modelled from the spec: the integers of the missing rlp package.
    Big-endian bytes of a non-negative integer without leading zeros; 0
    is the empty string. *)
Definition be_bytes (n : Z) : bytes :=
  rev (le_bytes (S (Z.to_nat (Z.log2 n))) n).

Definition be_value (s : bytes) : Z :=
  fold_left (fun acc b => acc * 256 + byte_to_Z b) s 0.

(** The value of base-256 digits, least significant first. *)
Fixpoint le_value (s : bytes) : Z :=
  match s with
  | [] => 0
  | b :: rest => byte_to_Z b + 256 * le_value rest
  end.

Definition leadingZero (s : bytes) : bool :=
  match s with
  | b :: _ => byte_to_Z b =? 0
  | [] => false
  end.

(** The head of a string or list: the length goes into the first byte
    up to 55, and into big-endian bytes after it above. *)
Definition header (base : Z) (len : Z) : bytes :=
  if len <=? 55 then [byte_of_Z (base + len)]
  else
    let size := be_bytes len in
    byte_of_Z (base + 55 + Z.of_nat (length size)) :: size.

Definition bytesLen (s : bytes) : Z := Z.of_nat (length s).

(** A string of one byte below 0x80 is its own encoding. *)
Definition singleLow (s : bytes) : bool :=
  match s with
  | [b] => byte_to_Z b <? 128
  | _ => false
  end.

Definition encodeString (s : bytes) : bytes :=
  if singleLow s then s else header 128 (bytesLen s) ++ s.

(** Modelled from the spec: the encoder of the missing rlp package.  A
    string is its head and its bytes, a list is its head and the
    encodings of its elements in order. *)
Fixpoint encode (i : item) : bytes :=
  match i with
  | Str s => encodeString s
  | List l =>
      let payload := concat (map encode l) in
      header 192 (bytesLen payload) ++ payload
  end.

(** Splits [n] bytes off the input. *)
Definition takeBytes (n : Z) (bs : bytes) : option (bytes * bytes) :=
  if bytesLen bs <? n then None
  else Some (firstn (Z.to_nat n) bs, skipn (Z.to_nat n) bs).

(** Reads a length written in [n] bytes; a leading zero and a length
    that fits the short form are not canonical. *)
Definition readSize (n : Z) (bs : bytes) : option (Z * bytes) :=
  match takeBytes n bs with
  | Some (size, rest) =>
      if leadingZero size then None
      else if be_value size <=? 55 then None
      else Some (be_value size, rest)
  | None => None
  end.

(** Modelled from the spec: the decoder of the missing rlp package.
    Decodes one item from the front of the input; the fuel bounds the
    nesting of lists. *)
Fixpoint decode (fuel : nat) (bs : bytes) : option (item * bytes) :=
  match fuel with
  | O => None
  | S fuel' =>
    match bs with
    | [] => None
    | b :: rest =>
      let tag := byte_to_Z b in
      if tag <? 128 then Some (Str [b], rest)
      else if tag <? 184 then
        match takeBytes (tag - 128) rest with
        | Some (s, rest') =>
            if singleLow s then None else Some (Str s, rest')
        | None => None
        end
      else if tag <? 192 then
        match readSize (tag - 183) rest with
        | Some (len, rest1) =>
            match takeBytes len rest1 with
            | Some (s, rest') => Some (Str s, rest')
            | None => None
            end
        | None => None
        end
      else
        match (if tag <? 248 then Some (tag - 192, rest)
               else readSize (tag - 247) rest) with
        | Some (len, rest1) =>
            match takeBytes len rest1 with
            | Some (payload, rest') =>
                match decodeList fuel' payload with
                | Some items => Some (List items, rest')
                | None => None
                end
            | None => None
            end
        | None => None
        end
    end
  end
with decodeList (fuel : nat) (payload : bytes) : option (list item) :=
  match fuel with
  | O => None
  | S fuel' =>
    match payload with
    | [] => Some []
    | _ :: _ =>
      match decode fuel' payload with
      | Some (x, rest) =>
          match decodeList fuel' rest with
          | Some xs => Some (x :: xs)
          | None => None
          end
      | None => None
      end
    end
  end.

(** The fuel that decoding the encoding of an item takes. *)
Fixpoint fuelFor (i : item) : nat :=
  match i with
  | Str _ => 1
  | List l => S (fold_right (fun x acc => S (Nat.max (fuelFor x) acc)) 1%nat l)
  end.

Definition fuelForList (l : list item) : nat :=
  fold_right (fun x acc => S (Nat.max (fuelFor x) acc)) 1%nat l.

(** Every length in the encoding of the item fits the eight bytes that
    a length can take. *)
Fixpoint fits (i : item) : Prop :=
  match i with
  | Str s => bytesLen s < 2 ^ 64
  | List l =>
      bytesLen (concat (map encode l)) < 2 ^ 64
      /\ fold_right (fun x acc => fits x /\ acc) True l
  end.

(** Decodes the single item the input consists of. *)
Definition decodeItem (bs : bytes) : option item :=
  match decode (2 * length bs) bs with
  | Some (i, []) => Some i
  | _ => None
  end.

End rlp.

(** ** The certificates of types_v2 on the wire *)

Module Wire.
Import istanbul rlp.

(** Modelled from the spec: the transport envelope of a message,
    {code: uint, address: 20-byte, msg: bytes, signature: bytes}.  A Go
    slice can be nil ([None]) or present, possibly empty. *)
Record Message := mkMessage {
  Code : Z;
  MsgAddress : Address;
  Msg : option bytes;
  MsgSignature : option bytes
}.

(** Modelled from the spec: the certificate types are missing from the
    sources; these are the fields the test builds and compares.  A
    prepared certificate is a proposal hash and a set of PREPARE or
    COMMIT messages; a round-change request has an address, a view, a
    prepared certificate and a signature; a round-change certificate is a
    set of requests. *)
Record PreparedCertificateV2 := mkPreparedCertificateV2 {
  ProposalHash : Hash;
  PrepareOrCommitMessages : option (list Message)
}.

Record RoundChangeRequest := mkRoundChangeRequest {
  RequestAddress : Address;
  RequestView : View;
  RequestPreparedCertificateV2 : PreparedCertificateV2;
  RequestSignature : option bytes
}.

Record RoundChangeCertificateV2 := mkRoundChangeCertificateV2 {
  Requests : option (list RoundChangeRequest)
}.

Fixpoint mapOption {A B : Type} (f : A -> option B) (l : list A)
  : option (list B) :=
  match l with
  | [] => Some []
  | x :: rest =>
      match f x, mapOption f rest with
      | Some y, Some ys => Some (y :: ys)
      | _, _ => None
      end
  end.

(** A nil slice has no elements. *)
Definition elements {A : Type} (s : option (list A)) : list A :=
  match s with
  | Some l => l
  | None => []
  end.

(** *** Encoding: every structure is the list of its fields in order *)

Definition encodeBytes (s : option bytes) : item := Str (elements s).

Definition encodeUint64 (n : Z) : item := Str (be_bytes n).

(** A nil integer is written as 0; a negative one cannot be written. *)
Definition encodeBigInt (x : option Z) : option item :=
  match x with
  | None => Some (Str [])
  | Some z => if z <? 0 then None else Some (Str (be_bytes z))
  end.

Definition encodeView (v : View) : option item :=
  match encodeBigInt (Round v), encodeBigInt (Sequence v) with
  | Some r, Some s => Some (List [r; s])
  | _, _ => None
  end.

Definition encodeMessage (m : Message) : item :=
  List [encodeUint64 (Code m); Str (MsgAddress m); encodeBytes (Msg m);
        encodeBytes (MsgSignature m)].

Definition encodePreparedCertificateV2 (pc : PreparedCertificateV2) : item :=
  List [Str (ProposalHash pc);
        List (map encodeMessage (elements (PrepareOrCommitMessages pc)))].

Definition encodeRoundChangeRequest (r : RoundChangeRequest) : option item :=
  match encodeView (RequestView r) with
  | Some v =>
      Some (List [Str (RequestAddress r); v;
                  encodePreparedCertificateV2 (RequestPreparedCertificateV2 r);
                  encodeBytes (RequestSignature r)])
  | None => None
  end.

Definition encodeRoundChangeCertificateV2 (c : RoundChangeCertificateV2)
  : option item :=
  match mapOption encodeRoundChangeRequest (elements (Requests c)) with
  | Some rs => Some (List [List rs])
  | None => None
  end.

(** Modelled from the spec: [rlp.EncodeToBytes] at a round-change
    certificate, each structure encoded as the ordered sequence of its
    fields. *)
Definition EncodeToBytes (c : RoundChangeCertificateV2) : option bytes :=
  match encodeRoundChangeCertificateV2 c with
  | Some i => Some (encode i)
  | None => None
  end.

(** *** Decoding *)

(** A decoded byte slice is never nil. *)
Definition decodeBytes (i : item) : option (option bytes) :=
  match i with
  | Str s => Some (Some s)
  | List _ => None
  end.

(** A byte array of [n] bytes ([common.Address], [common.Hash]). *)
Definition decodeArray (n : nat) (i : item) : option bytes :=
  match i with
  | Str s => if Nat.eqb (length s) n then Some s else None
  | List _ => None
  end.

Definition decodeUint64 (i : item) : option Z :=
  match i with
  | Str s =>
      if leadingZero s then None
      else if Nat.ltb 8 (length s) then None
      else Some (be_value s)
  | List _ => None
  end.

Definition decodeBigInt (i : item) : option (option Z) :=
  match i with
  | Str s => if leadingZero s then None else Some (Some (be_value s))
  | List _ => None
  end.

Definition decodeView (i : item) : option View :=
  match i with
  | List [r; s] =>
      match decodeBigInt r, decodeBigInt s with
      | Some r', Some s' => Some (mkView r' s')
      | _, _ => None
      end
  | _ => None
  end.

Definition decodeMessage (i : item) : option Message :=
  match i with
  | List [c; a; m; s] =>
      match decodeUint64 c, decodeArray 20 a, decodeBytes m, decodeBytes s with
      | Some c', Some a', Some m', Some s' => Some (mkMessage c' a' m' s')
      | _, _, _, _ => None
      end
  | _ => None
  end.

(** A decoded slice is never nil either. *)
Definition decodeSlice {A : Type} (dec : item -> option A) (i : item)
  : option (option (list A)) :=
  match i with
  | List l =>
      match mapOption dec l with
      | Some xs => Some (Some xs)
      | None => None
      end
  | Str _ => None
  end.

Definition decodePreparedCertificateV2 (i : item) : option PreparedCertificateV2 :=
  match i with
  | List [h; ms] =>
      match decodeArray 32 h, decodeSlice decodeMessage ms with
      | Some h', Some ms' => Some (mkPreparedCertificateV2 h' ms')
      | _, _ => None
      end
  | _ => None
  end.

Definition decodeRoundChangeRequest (i : item) : option RoundChangeRequest :=
  match i with
  | List [a; v; pc; s] =>
      match decodeArray 20 a, decodeView v, decodePreparedCertificateV2 pc,
            decodeBytes s with
      | Some a', Some v', Some pc', Some s' =>
          Some (mkRoundChangeRequest a' v' pc' s')
      | _, _, _, _ => None
      end
  | _ => None
  end.

Definition decodeRoundChangeCertificateV2 (i : item)
  : option RoundChangeCertificateV2 :=
  match i with
  | List [rs] =>
      match decodeSlice decodeRoundChangeRequest rs with
      | Some rs' => Some (mkRoundChangeCertificateV2 rs')
      | None => None
      end
  | _ => None
  end.

(** Modelled from the spec: [rlp.DecodeBytes] into a round-change
    certificate; the input is one item and nothing else. *)
Definition DecodeBytes (bs : bytes) : option RoundChangeCertificateV2 :=
  match decodeItem bs with
  | Some i => decodeRoundChangeCertificateV2 i
  | None => None
  end.

(** *** The canonical form: what is absent becomes empty *)

Definition canonicalBytes (s : option bytes) : option bytes := Some (elements s).

Definition canonicalBigInt (x : option Z) : option Z :=
  match x with
  | Some z => Some z
  | None => Some 0
  end.

Definition canonicalView (v : View) : View :=
  mkView (canonicalBigInt (Round v)) (canonicalBigInt (Sequence v)).

Definition canonicalMessage (m : Message) : Message :=
  mkMessage (Code m) (MsgAddress m) (canonicalBytes (Msg m))
            (canonicalBytes (MsgSignature m)).

Definition canonicalPreparedCertificateV2 (pc : PreparedCertificateV2)
  : PreparedCertificateV2 :=
  mkPreparedCertificateV2 (ProposalHash pc)
    (Some (map canonicalMessage (elements (PrepareOrCommitMessages pc)))).

Definition canonicalRoundChangeRequest (r : RoundChangeRequest)
  : RoundChangeRequest :=
  mkRoundChangeRequest (RequestAddress r) (canonicalView (RequestView r))
    (canonicalPreparedCertificateV2 (RequestPreparedCertificateV2 r))
    (canonicalBytes (RequestSignature r)).

Definition canonical (c : RoundChangeCertificateV2) : RoundChangeCertificateV2 :=
  mkRoundChangeCertificateV2
    (Some (map canonicalRoundChangeRequest (elements (Requests c)))).

(** *** Values of the Go types *)

Definition present {A : Type} (x : option A) : bool :=
  match x with
  | Some _ => true
  | None => false
  end.

Definition nonNegative (x : option Z) : bool :=
  match x with
  | Some z => 0 <=? z
  | None => true
  end.

(** The values the Go types hold: a uint64 code, 20-byte addresses,
    32-byte hashes, and counters that are not negative. *)
Definition validMessage (m : Message) : bool :=
  (0 <=? Code m) && (Code m <? 2 ^ 64) && Nat.eqb (length (MsgAddress m)) 20.

Definition validPreparedCertificateV2 (pc : PreparedCertificateV2) : bool :=
  Nat.eqb (length (ProposalHash pc)) 32
  && forallb validMessage (elements (PrepareOrCommitMessages pc)).

Definition validRoundChangeRequest (r : RoundChangeRequest) : bool :=
  Nat.eqb (length (RequestAddress r)) 20
  && nonNegative (Round (RequestView r))
  && nonNegative (Sequence (RequestView r))
  && validPreparedCertificateV2 (RequestPreparedCertificateV2 r).

Definition valid (c : RoundChangeCertificateV2) : bool :=
  forallb validRoundChangeRequest (elements (Requests c)).

(** No field is absent: slices and integers are not nil. *)
Definition fullMessage (m : Message) : bool :=
  present (Msg m) && present (MsgSignature m).

Definition fullPreparedCertificateV2 (pc : PreparedCertificateV2) : bool :=
  present (PrepareOrCommitMessages pc)
  && forallb fullMessage (elements (PrepareOrCommitMessages pc)).

Definition fullRoundChangeRequest (r : RoundChangeRequest) : bool :=
  present (Round (RequestView r)) && present (Sequence (RequestView r))
  && fullPreparedCertificateV2 (RequestPreparedCertificateV2 r)
  && present (RequestSignature r).

Definition full (c : RoundChangeCertificateV2) : bool :=
  present (Requests c) && forallb fullRoundChangeRequest (elements (Requests c)).

(** The certificate of the test: three copies of a request for view
    (round 1, sequence 2) with an empty prepared certificate and an empty
    signature. *)
Definition dummyRoundChangeRequest : RoundChangeRequest :=
  mkRoundChangeRequest (repeat x00 20)
    (mkView (Some 1) (Some 2))
    (mkPreparedCertificateV2 (repeat xab 32) (Some []))
    (Some []).

Definition dummyRoundChangeCertificateV2 : RoundChangeCertificateV2 :=
  mkRoundChangeCertificateV2
    (Some [dummyRoundChangeRequest; dummyRoundChangeRequest;
           dummyRoundChangeRequest]).

End Wire.

(** ** What handleMsg can do to the engine *)

Module Dispatching.
Import istanbul Engine.

(** [r] is what one of the handlers that [handleMsg] ends in returns for
    [msg] in state [c]. *)
Definition dispatched {W} (env : Collaborators W) (msg : Message) (c : core W)
    (r : outcome * core W) : Prop :=
  r = handlePreprepare env msg c \/
  r = handlePrepare env msg c \/
  r = handleCommit env msg c \/
  r = handleRoundChange env msg c \/
  exists commit, Body msg = BCommit commit /\
                 r = handleCheckedCommitForPreviousSequence env msg commit c.

(** The backend's last subject, when it can be read, has a view without
    nil fields. *)
Definition lastSubjectReadable {W} (env : Collaborators W) (c : core W) : Prop :=
  forall lastSubject, LastSubject env (world c) = inl lastSubject ->
    exists r s, SubjectView lastSubject = Some (mkView (Some r) (Some s)).

(** The engine states in which [handleMsg] has nothing to panic about:
    the round assertion holds and the last subject is readable. *)
Definition sound {W} (env : Collaborators W) (c : core W) : Prop :=
  round (current c) <= desiredRound (current c) /\ lastSubjectReadable env c.

(** A handler returns, and in a sound state. *)
Definition returnsSound {W} (env : Collaborators W) (r : outcome * core W) : Prop :=
  exists e c', r = (Return e, c') /\ sound env c'.

(** The five handlers behind [handleMsg] return without a panic and keep
    the engine sound. *)
Definition handlersReturn {W} (env : Collaborators W) : Prop :=
  forall msg c, sound env c ->
    returnsSound env (handlePreprepare env msg c) /\
    returnsSound env (handlePrepare env msg c) /\
    returnsSound env (handleCommit env msg c) /\
    returnsSound env (handleRoundChange env msg c) /\
    forall commit,
      returnsSound env (handleCheckedCommitForPreviousSequence env msg commit c).

(** The concrete collaborators of [Scenario.envNoLast] with another
    [Payload], and with [handleRequest] and [handlePrepare] that end in a
    given outcome. *)
Definition envWith (payloadOf : Message -> bytes + error)
    (onRequest onPrepare : outcome) : Collaborators Scenario.World :=
  let base := Scenario.envNoLast in
  {| FromPayload := FromPayload base;
     Payload := payloadOf;
     ParentBlockValidators := ParentBlockValidators base;
     AuthorForBlock := AuthorForBlock base;
     selectProposer := selectProposer base;
     HasBlock := HasBlock base;
     LastSubject := LastSubject base;
     handleCheckedCommitForPreviousSequence :=
       handleCheckedCommitForPreviousSequence base;
     handlePreprepare := handlePreprepare base;
     handlePrepare := fun _ c => (onPrepare, Scenario.ran 2 c);
     handleCommit := handleCommit base;
     handleRoundChange := handleRoundChange base;
     waitForDesiredRound := waitForDesiredRound base;
     resendRoundChangeMessage := resendRoundChangeMessage base;
     handleRequest := fun _ c => (onRequest, Scenario.ran 7 c);
     storeRequestMsg := storeRequestMsg base;
     handleFinalCommitted := handleFinalCommitted base |}.

(** Collaborators that decode two more payloads: a message with a code
    that is none of the four, and a PRE-PREPARE for block 0. *)
Definition envExtra : Collaborators Scenario.World :=
  Scenario.collaborators
    [ ([x01], mkMessage Scenario.addrB
                (BUnknown 9 (Some (Scenario.view 0 5))) []);
      ([x02], Scenario.preprepareFrom Scenario.addrA 0 0) ]
    4 (inr (ErrOther 3)).

(** The payload is turned down before its view is compared: it does not
    decode, its sender is no validator, or its view has a nil field. *)
Definition turnedDown {W} (env : Collaborators W) (c : core W)
    (payload : bytes) : Prop :=
  (exists err, FromPayload env payload = inr err) \/
  (exists msg, FromPayload env payload = inl msg /\
     (snd (GetByAddress (validatorSet (current c)) (MsgAddress msg)) = None \/
      Scenario.missingView (MsgView msg))).

End Dispatching.

(** * Properties *)

(** ** Comparisons *)

Lemma bytes_eqb_eq (x y : bytes) : bytes_eqb x y = true <-> x = y.
Proof.
  revert y; induction x as [|a x IH]; intros [|b y]; cbn; try (split; congruence).
  rewrite andb_true_iff, IH. split.
  - intros [Hab ->]. apply Byte.byte_dec_bl in Hab. now subst.
  - intros [= -> ->]. split; [apply Byte.byte_dec_lb|]; reflexivity.
Qed.

Lemma address_eqb_refl (a : Address) : address_eqb a a = true.
Proof. now apply bytes_eqb_eq. Qed.

Lemma address_eqb_neq (a b : Address) : a <> b -> address_eqb a b = false.
Proof.
  intros Hne. destruct (address_eqb a b) eqn:E; [|reflexivity].
  apply bytes_eqb_eq in E. contradiction.
Qed.

Lemma bigCmp_ltb (x y : Z) : (bigCmp x y <? 0) = (x <? y).
Proof.
  unfold bigCmp. destruct (Z.compare_spec x y); cbn; symmetry.
  - subst. apply Z.ltb_irrefl.
  - now apply Z.ltb_lt.
  - apply Z.ltb_ge. lia.
Qed.

Lemma bigCmp_gtb (x y : Z) : (bigCmp x y >? 0) = (y <? x).
Proof.
  unfold bigCmp. destruct (Z.compare_spec x y); cbn; symmetry.
  - subst. apply Z.ltb_irrefl.
  - apply Z.ltb_ge. lia.
  - now apply Z.ltb_lt.
Qed.

Lemma bigCmp_eqb (x y : Z) : (bigCmp x y =? 0) = (x =? y).
Proof.
  unfold bigCmp. destruct (Z.compare_spec x y); cbn; symmetry.
  - subst. apply Z.eqb_refl.
  - apply Z.eqb_neq. lia.
  - apply Z.eqb_neq. lia.
Qed.

Lemma Cmp_views (r1 s1 r2 s2 : Z) :
  istanbul.Cmp (istanbul.mkView (Some r1) (Some s1))
               (istanbul.mkView (Some r2) (Some s2))
  = Some (if s1 =? s2 then bigCmp r1 r2 else bigCmp s1 s2).
Proof. unfold istanbul.Cmp; cbn. now rewrite bigCmp_eqb. Qed.

(** A view is older than another one when it is smaller in the
    lexicographic order on (Sequence, Round). *)
Lemma Cmp_older (r1 s1 r2 s2 : Z) :
  s1 < s2 \/ (s1 = s2 /\ r1 < r2) ->
  exists k, istanbul.Cmp (istanbul.mkView (Some r1) (Some s1))
                         (istanbul.mkView (Some r2) (Some s2)) = Some k
            /\ (k <? 0) = true.
Proof.
  intros H. rewrite Cmp_views. eexists; split; [reflexivity|].
  destruct (Z.eqb_spec s1 s2); rewrite bigCmp_ltb; apply Z.ltb_lt; lia.
Qed.

Lemma Cmp_not_older (r1 s1 r2 s2 : Z) :
  s2 < s1 \/ (s1 = s2 /\ r2 <= r1) ->
  exists k, istanbul.Cmp (istanbul.mkView (Some r1) (Some s1))
                         (istanbul.mkView (Some r2) (Some s2)) = Some k
            /\ (k <? 0) = false.
Proof.
  intros H. rewrite Cmp_views. eexists; split; [reflexivity|].
  destruct (Z.eqb_spec s1 s2); rewrite bigCmp_ltb; apply Z.ltb_ge; lia.
Qed.

Lemma Cmp_same (r1 s1 r2 s2 : Z) (k : Z) :
  istanbul.Cmp (istanbul.mkView (Some r1) (Some s1))
               (istanbul.mkView (Some r2) (Some s2)) = Some k ->
  (k =? 0) = true <-> (r1 = r2 /\ s1 = s2).
Proof.
  rewrite Cmp_views. intros [= <-].
  destruct (Z.eqb_spec s1 s2); rewrite bigCmp_eqb, Z.eqb_eq; lia.
Qed.

(** ** The dispatch of handleMsg *)

Section Dispatch.
Import istanbul Engine Scenario.
Context {W : Type} (env : Collaborators W).

(** Enters [handleMsg] up to the comparison with the desired view. *)
Ltac enter H :=
  let Hd := fresh "Hdecode" in
  let Ha := fresh "Hauth" in
  let Hv := fresh "Hview" in
  destruct H as (Hd & Ha & Hv);
  unfold handleMsg; rewrite Hd;
  match goal with
  | |- context [snd (GetByAddress ?vs ?a)] =>
      destruct (snd (GetByAddress vs a)); [|congruence]
  end;
  rewrite Hv; cbn [Sequence Round].

Lemma unauthorized_rejected (c : core W) payload msg :
  FromPayload env payload = inl msg ->
  snd (GetByAddress (validatorSet (current c)) (MsgAddress msg)) = None ->
  handleMsg env payload c = (Return (Some ErrUnauthorizedAddress), c).
Proof. intros Hd Ha. unfold handleMsg. now rewrite Hd, Ha. Qed.

Lemma missing_view_rejected (c : core W) payload msg :
  FromPayload env payload = inl msg ->
  snd (GetByAddress (validatorSet (current c)) (MsgAddress msg)) <> None ->
  missingView (MsgView msg) ->
  handleMsg env payload c = (Return (Some errInvalidMessage), c).
Proof.
  intros Hd Ha Hm. unfold handleMsg. rewrite Hd.
  destruct (snd (GetByAddress _ _)); [|congruence].
  destruct Hm as [-> | (w & -> & [Hs | Hr])]; [reflexivity| |].
  - now rewrite Hs.
  - rewrite Hr. now destruct (Sequence w).
Qed.

(** A message that is not older than the desired view reaches the test
    on the sequence. *)
Lemma not_older_step (c : core W) payload msg vRound vSequence :
  accepted env c payload msg vRound vSequence ->
  sequence (current c) < vSequence \/
  (vSequence = sequence (current c) /\ desiredRound (current c) <= vRound) ->
  handleMsg env payload c =
    if sequence (current c) <? vSequence then
      (Return (Some errFutureMessage),
       if negb (address_eqb (MsgAddress msg) (address c))
       then backlogStore msg c else c)
    else if desiredRound (current c) <? round (current c) then
      (Panic (RoundMismatch (round (current c)) (desiredRound (current c))), c)
    else if (State_eqb (state (current c)) StateWaitingForNewRound
             || State_eqb (state (current c)) StateAcceptRequest)
            && (MsgCode_eqb (Code msg) MsgCommit
                || MsgCode_eqb (Code msg) MsgPrepare)
    then (Return (Some errFutureMessage),
          if negb (address_eqb (MsgAddress msg) (address c))
          then backlogStore msg c else c)
    else if negb (MsgCode_eqb (Code msg) MsgRoundChange)
            && (desiredRound (current c) <? vRound)
    then (Return (Some errFutureMessage),
          if negb (address_eqb (MsgAddress msg) (address c))
          then backlogStore msg c else c)
    else match Code msg with
         | MsgPreprepare => handlePreprepare env msg c
         | MsgPrepare => handlePrepare env msg c
         | MsgCommit => handleCommit env msg c
         | MsgRoundChange => handleRoundChange env msg c
         | MsgUnknown _ => (Return (Some errInvalidMessage), c)
         end.
Proof.
  intros Hacc Hnew. enter Hacc.
  destruct (Cmp_not_older vRound vSequence (desiredRound (current c))
              (sequence (current c))) as (k & -> & ->); [lia|].
  now rewrite !bigCmp_gtb.
Qed.

(** A message that [handleMsg] classifies as a future message is
    answered with the future-message signal, and stored in the backlog
    exactly when it does not come from the engine itself. *)
Lemma classified_future_step (c : core W) payload msg vRound vSequence :
  accepted env c payload msg vRound vSequence ->
  classifiedFuture c msg vRound vSequence ->
  handleMsg env payload c =
    (Return (Some errFutureMessage),
     if negb (address_eqb (MsgAddress msg) (address c))
     then backlogStore msg c else c).
Proof.
  intros Hacc Hfut. unfold classifiedFuture, futureSequence in Hfut.
  rewrite (not_older_step c payload msg vRound vSequence Hacc) by lia.
  destruct Hfut as [Hseq | (Hs & Hr & Hinv & Hcls)].
  - now replace (sequence (current c) <? vSequence) with true
      by (symmetry; apply Z.ltb_lt; lia).
  - replace (sequence (current c) <? vSequence) with false
      by (symmetry; apply Z.ltb_ge; lia).
    replace (desiredRound (current c) <? round (current c)) with false
      by (symmetry; apply Z.ltb_ge; lia).
    destruct ((State_eqb (state (current c)) StateWaitingForNewRound
               || State_eqb (state (current c)) StateAcceptRequest)
              && (MsgCode_eqb (Code msg) MsgCommit
                  || MsgCode_eqb (Code msg) MsgPrepare)) eqn:Evote;
      [reflexivity|].
    destruct Hcls as [([Hst | Hst] & [Hc | Hc]) | (Hrc & Hlt)];
      try (rewrite Hst, Hc in Evote; discriminate).
    replace (desiredRound (current c) <? vRound) with true
      by (symmetry; apply Z.ltb_lt; lia).
    destruct (Code msg); try reflexivity. congruence.
Qed.

Lemma old_message_step (c : core W) payload msg vRound vSequence :
  accepted env c payload msg vRound vSequence ->
  vSequence < sequence (current c) \/
  (vSequence = sequence (current c) /\ vRound < desiredRound (current c)) ->
  handleMsg env payload c =
    match Body msg with
    | BPreprepare preprepare =>
        if fromProposerOfKnownBlock env c msg preprepare vRound
        then (Return None, c)
        else (Return (Some errOldMessage), c)
    | BCommit commit =>
        match LastSubject env (world c) with
        | inr err => (Return (Some err), c)
        | inl lastSubject =>
            match SubjectView lastSubject with
            | None => (Panic NilDereference, c)
            | Some lastView =>
                match Cmp (mkView (Some vRound) (Some vSequence)) lastView,
                      Sequence lastView with
                | Some k, Some lastSequence =>
                    if negb (k =? 0) then (Return (Some errOldMessage), c)
                    else if lastSequence =? 0
                    then (Return (Some errOldMessage), c)
                    else handleCheckedCommitForPreviousSequence env msg commit c
                | _, _ => (Panic NilDereference, c)
                end
            end
        end
    | _ => (Return (Some errOldMessage), c)
    end.
Proof.
  intros Hacc Hold. enter Hacc.
  destruct (Cmp_older vRound vSequence (desiredRound (current c))
              (sequence (current c)) Hold) as (k & -> & ->).
  destruct (Body msg); try reflexivity.
  destruct (LastSubject env (world c)) as [lastSubject|]; [|reflexivity].
  destruct (SubjectView lastSubject) as [lastView|]; [|reflexivity].
  destruct (Cmp _ lastView); [|reflexivity].
  destruct (Sequence lastView); [|reflexivity].
  now rewrite bigCmp_eqb.
Qed.

End Dispatch.

(** ** The backlog keeps and replays what was stored *)

Section BacklogFacts.
Import istanbul Backlog.

Lemma insertByRound_In (m x : Message) (l : list Message) :
  In x (insertByRound m l) <-> x = m \/ In x l.
Proof.
  induction l as [|y l IH]; cbn.
  - intuition congruence.
  - destruct (roundLeb m y); cbn; [intuition congruence|].
    rewrite IH. intuition congruence.
Qed.

Lemma viewOrder_In (x : Message) (l : list Message) :
  In x (viewOrder l) <-> In x l.
Proof.
  induction l as [|y l IH]; cbn; [reflexivity|].
  rewrite insertByRound_In, IH. intuition congruence.
Qed.

Lemma store_In (m : Message) (b : t) : In m (store m b).
Proof. unfold store. apply in_or_app. right. now left. Qed.

Lemma store_keeps (m x : Message) (b : t) : In x b -> In x (store m b).
Proof. intros H. unfold store. apply in_or_app. now left. Qed.

(** A buffered message is replayed by the [updateState] whose view has
    the sequence of the message. *)
Lemma updateState_replays (m : Message) (b : t) (r : option Z) (s : Z)
    (st : State) :
  In m b -> msgSequence m = Some s ->
  In m (fst (updateState (mkView r (Some s)) st b)).
Proof.
  intros Hin Hs. unfold updateState; cbn.
  apply viewOrder_In, filter_In. split; [assumption|].
  unfold isCurrent. rewrite Hs. apply Z.eqb_refl.
Qed.

(** It stays buffered as long as the engine's sequence is behind. *)
Lemma updateState_retains (m : Message) (b : t) (r : option Z) (s s' : Z)
    (st : State) :
  In m b -> msgSequence m = Some s -> s' < s ->
  In m (snd (updateState (mkView r (Some s')) st b)).
Proof.
  intros Hin Hs Hlt. unfold updateState; cbn.
  apply filter_In. split; [assumption|].
  unfold isAhead. rewrite Hs. now apply Z.ltb_lt.
Qed.

End BacklogFacts.

(** ** Round state invariant *)

Section RoundInvariant.
Import istanbul Engine Transitions.

Lemma apply_keeps_order (t : Transition) (rs rs' : RoundState) :
  round rs <= desiredRound rs ->
  apply t rs = Some rs' ->
  round rs' <= desiredRound rs'.
Proof.
  intros Hle. unfold apply.
  destruct t as [ | | | | reproposal | vs]; destruct (state rs);
    intros [= <-]; cbn; lia.
Qed.

Lemma run_keeps_order (ts : list Transition) :
  forall rs rs', round rs <= desiredRound rs ->
                 run ts rs = Some rs' ->
                 round rs' <= desiredRound rs'.
Proof.
  induction ts as [|t ts IH]; cbn; intros rs rs' Hle Hrun.
  - now injection Hrun as <-.
  - destruct (apply t rs) as [rs1|] eqn:Happ; [|discriminate].
    eapply IH; [|eassumption]. eapply apply_keeps_order; eassumption.
Qed.

Lemma reachable_round_order (rs : RoundState) :
  reachable rs -> round rs <= desiredRound rs.
Proof.
  intros (seq & vs & ts & Hrun).
  eapply run_keeps_order; [|eassumption]. cbn. lia.
Qed.

(** The desired round does not decrease while the sequence stays. *)
Lemma apply_desired_monotone (t : Transition) (rs rs' : RoundState) :
  apply t rs = Some rs' ->
  sequence rs' = sequence rs ->
  desiredRound rs <= desiredRound rs'.
Proof.
  unfold apply.
  destruct t as [ | | | | reproposal | vs]; destruct (state rs);
    intros [= <-]; cbn; lia.
Qed.

End RoundInvariant.

(** ** Claims on handleMsg and the timeout handler *)

Section Claims.
Import istanbul Engine Scenario.
Context {W : Type} (env : Collaborators W).

(** C1 (as amended).  In every reachable round state the actual round is
    at most the desired round.  When a message reaches the round
    assertion of [handleMsg] (decoded, from a validator, with a full
    view that is neither older than the desired view nor of a future
    sequence) in a state that breaks this, [handleMsg] panics instead of
    returning an error, the engine is left as it was, and the event loop
    does not recover the panic: it ends with it, whatever events
    follow. *)
Theorem round_assertion_panics :
  (forall rs, Transitions.reachable rs -> round rs <= desiredRound rs) /\
  (forall (c : core W) payload msg vRound vSequence evs,
      accepted env c payload msg vRound vSequence ->
      vSequence = sequence (current c) ->
      desiredRound (current c) <= vRound ->
      desiredRound (current c) < round (current c) ->
      handleMsg env payload c =
        (Panic (RoundMismatch (round (current c)) (desiredRound (current c))), c)
      /\ handleEvents env (MessageEvent payload :: evs) c =
        (Panic (RoundMismatch (round (current c)) (desiredRound (current c))), c)).
Proof.
  split; [exact reachable_round_order|].
  intros c payload msg vRound vSequence evs Hacc Hs Hr Hbad.
  assert (Hm : handleMsg env payload c =
    (Panic (RoundMismatch (round (current c)) (desiredRound (current c))), c)).
  { rewrite (not_older_step env c payload msg vRound vSequence Hacc) by lia.
    replace (sequence (current c) <? vSequence) with false
      by (symmetry; apply Z.ltb_ge; lia).
    now replace (desiredRound (current c) <? round (current c)) with true
      by (symmetry; apply Z.ltb_lt; lia). }
  split; [exact Hm|]. cbn. now rewrite Hm.
Qed.

(** C2 (as amended).  A decoded message of a validator whose view is
    strictly older than the (desired round, sequence) view is answered
    with the old-message error, except that: a PRE-PREPARE from the
    proposer of its round for a block the backend has returns nil and
    leaves the engine untouched; a COMMIT gets the error of the backend
    when the last subject cannot be read, and is handed to the handler
    for commits of the previous sequence when its view equals the view
    of the last subject and that view is not of the genesis block
    (sequence 0). *)
Theorem old_message_dispatch (c : core W) payload msg vRound vSequence :
  accepted env c payload msg vRound vSequence ->
  vSequence < sequence (current c) \/
  (vSequence = sequence (current c) /\ vRound < desiredRound (current c)) ->
  (forall preprepare, Body msg = BPreprepare preprepare ->
     (fromProposerOfKnownBlock env c msg preprepare vRound = true ->
      handleMsg env payload c = (Return None, c)) /\
     (fromProposerOfKnownBlock env c msg preprepare vRound = false ->
      handleMsg env payload c = (Return (Some errOldMessage), c))) /\
  (forall commit, Body msg = BCommit commit ->
     (forall err, LastSubject env (world c) = inr err ->
        handleMsg env payload c = (Return (Some err), c)) /\
     (forall lastSubject lastRound lastSequence,
        LastSubject env (world c) = inl lastSubject ->
        SubjectView lastSubject
          = Some (mkView (Some lastRound) (Some lastSequence)) ->
        (vRound = lastRound /\ vSequence = lastSequence /\ lastSequence <> 0 ->
         handleMsg env payload c =
           handleCheckedCommitForPreviousSequence env msg commit c) /\
        (~ (vRound = lastRound /\ vSequence = lastSequence /\ lastSequence <> 0) ->
         handleMsg env payload c = (Return (Some errOldMessage), c)))) /\
  (Code msg <> MsgPreprepare -> Code msg <> MsgCommit ->
   handleMsg env payload c = (Return (Some errOldMessage), c)).
Proof.
  intros Hacc Hold.
  rewrite (old_message_step env c payload msg vRound vSequence Hacc Hold).
  split; [|split].
  - intros preprepare ->. split; intros ->; reflexivity.
  - intros commit ->. split.
    + now intros err ->.
    + intros lastSubject lastRound lastSequence -> ->.
      destruct (Cmp (mkView (Some vRound) (Some vSequence))
                    (mkView (Some lastRound) (Some lastSequence)))
        as [k|] eqn:Hk; [|rewrite Cmp_views in Hk; discriminate].
      pose proof (Cmp_same _ _ _ _ _ Hk) as Hsame. cbn [Sequence].
      destruct (k =? 0); cbn [negb].
      * destruct (Z.eqb_spec lastSequence 0) as [Hgenesis|Hlater]; split.
        -- intros (_ & _ & Hnot). contradiction.
        -- reflexivity.
        -- reflexivity.
        -- intros Hnot. exfalso. apply Hnot.
           destruct (proj1 Hsame eq_refl) as (Hr & Hs). now repeat split.
      * split.
        -- intros (Hr & Hs & _).
           assert (false = true) by (apply Hsame; now split). discriminate.
        -- reflexivity.
  - unfold Code. destruct (Body msg); intros H1 H2; try reflexivity; congruence.
Qed.

(** C3 (as amended).  A decoded message of a validator whose view has
    a Sequence strictly greater than the engine's Sequence is answered
    with the future-message signal.  When it comes from another
    validator it is stored in the backlog, stays there while the
    engine's Sequence is behind, and is replayed by the [updateState]
    for its Sequence; when it comes from the engine's own address the
    engine, backlog included, is left as it was. *)
Theorem future_sequence_buffered (c : core W) payload msg vRound vSequence :
  accepted env c payload msg vRound vSequence ->
  sequence (current c) < vSequence ->
  (MsgAddress msg <> address c ->
   handleMsg env payload c
     = (Return (Some errFutureMessage), backlogStore msg c) /\
   In msg (backlog (backlogStore msg c)) /\
   (forall r s st, s < vSequence ->
      In msg (snd (Backlog.updateState (mkView r (Some s)) st
                     (backlog (backlogStore msg c))))) /\
   (forall r st,
      In msg (fst (Backlog.updateState (mkView r (Some vSequence)) st
                     (backlog (backlogStore msg c)))))) /\
  (MsgAddress msg = address c ->
   handleMsg env payload c = (Return (Some errFutureMessage), c)).
Proof.
  intros Hacc Hseq.
  rewrite (classified_future_step env c payload msg vRound vSequence Hacc)
    by (left; exact Hseq).
  assert (Hms : Backlog.msgSequence msg = Some vSequence).
  { unfold Backlog.msgSequence. destruct Hacc as (_ & _ & ->). reflexivity. }
  split.
  - intros Hne. rewrite (address_eqb_neq _ _ Hne). cbn [negb].
    split; [reflexivity|]. cbn [backlog backlogStore].
    split; [apply store_In|]. split.
    + intros r s st Hlt.
      apply (updateState_retains msg _ r vSequence s st);
        [apply store_In | exact Hms | exact Hlt].
    + intros r st. apply updateState_replays; [apply store_In | exact Hms].
  - intros ->. now rewrite address_eqb_refl.
Qed.

(** C4 (as amended).  In a state where the round is at most the desired
    round, a message of the current sequence whose round is strictly
    greater than the desired round and which is not a ROUND-CHANGE is
    answered with the future-message signal, and stored in the backlog
    unless it comes from the engine's own address (then the engine is
    left as it was).  A ROUND-CHANGE of the current sequence whose
    round is the desired round or any greater one is handed to its
    handler; one whose round is below the desired round is answered with
    the old-message error. *)
Theorem future_round_buffered (c : core W) payload msg vRound vSequence :
  accepted env c payload msg vRound vSequence ->
  vSequence = sequence (current c) ->
  round (current c) <= desiredRound (current c) ->
  (desiredRound (current c) < vRound -> Code msg <> MsgRoundChange ->
   (MsgAddress msg <> address c ->
    handleMsg env payload c
      = (Return (Some errFutureMessage), backlogStore msg c)) /\
   (MsgAddress msg = address c ->
    handleMsg env payload c = (Return (Some errFutureMessage), c))) /\
  (desiredRound (current c) <= vRound -> Code msg = MsgRoundChange ->
   handleMsg env payload c = handleRoundChange env msg c) /\
  (vRound < desiredRound (current c) -> Code msg = MsgRoundChange ->
   handleMsg env payload c = (Return (Some errOldMessage), c)).
Proof.
  intros Hacc Hs Hinv. split; [|split].
  - intros Hr Hrc.
    rewrite (classified_future_step env c payload msg vRound vSequence Hacc)
      by (right; repeat split; try lia; right; split; assumption).
    split.
    + intros Hne. now rewrite (address_eqb_neq _ _ Hne).
    + intros ->. now rewrite address_eqb_refl.
  - intros Hr Hrc.
    rewrite (not_older_step env c payload msg vRound vSequence Hacc) by lia.
    replace (sequence (current c) <? vSequence) with false
      by (symmetry; apply Z.ltb_ge; lia).
    replace (desiredRound (current c) <? round (current c)) with false
      by (symmetry; apply Z.ltb_ge; lia).
    rewrite Hrc. cbn. now rewrite andb_false_r.
  - intros Hr Hrc.
    rewrite (old_message_step env c payload msg vRound vSequence Hacc) by lia.
    unfold Code in Hrc. destruct (Body msg); try discriminate. reflexivity.
Qed.

(** C5 (as amended).  In a state where the round is at most the desired
    round, a COMMIT or PREPARE of the current sequence whose round is
    not older than the desired round, received in state AcceptRequest
    or WaitingForNewRound, is not dispatched: it is answered with the
    future-message signal, and stored in the backlog unless it comes
    from the engine's own address (then the engine is left as it
    was). *)
Theorem early_vote_buffered (c : core W) payload msg vRound vSequence :
  accepted env c payload msg vRound vSequence ->
  vSequence = sequence (current c) ->
  desiredRound (current c) <= vRound ->
  round (current c) <= desiredRound (current c) ->
  earlyVote c msg ->
  (MsgAddress msg <> address c ->
   handleMsg env payload c
     = (Return (Some errFutureMessage), backlogStore msg c)) /\
  (MsgAddress msg = address c ->
   handleMsg env payload c = (Return (Some errFutureMessage), c)).
Proof.
  intros Hacc Hs Hr Hinv Hvote.
  rewrite (classified_future_step env c payload msg vRound vSequence Hacc)
    by (right; repeat split; try lia; now left).
  split.
  - intros Hne. now rewrite (address_eqb_neq _ _ Hne).
  - intros ->. now rewrite address_eqb_refl.
Qed.

(** C6.  A decoded message whose sender is not in the current validator
    set is answered with the unauthorized-address error, and a message
    of a validator with a nil view, sequence or round with the
    invalid-message error; in both cases the engine (round state and
    backlog included) is left as it was. *)
Theorem rejected_before_mutation (c : core W) payload msg :
  FromPayload env payload = inl msg ->
  (snd (GetByAddress (validatorSet (current c)) (MsgAddress msg)) = None ->
   handleMsg env payload c = (Return (Some ErrUnauthorizedAddress), c)) /\
  (snd (GetByAddress (validatorSet (current c)) (MsgAddress msg)) <> None ->
   missingView (MsgView msg) ->
   handleMsg env payload c = (Return (Some errInvalidMessage), c)).
Proof.
  intros Hd. split.
  - now apply unauthorized_rejected.
  - now apply missing_view_rejected.
Qed.

(** C7.  The timeout handler calls [waitForDesiredRound] with the round
    after the timed-out one exactly when the engine's sequence and
    desired round are those of the timed-out view; otherwise it returns
    nil and leaves the engine as it was. *)
Theorem timeout_moves_to_next_round (c : core W) (toRound toSequence : Z) :
  (sequence (current c) = toSequence /\ desiredRound (current c) = toRound ->
   handleTimeoutAndMoveToNextRound env (mkView (Some toRound) (Some toSequence)) c
     = waitForDesiredRound env (toRound + 1) c) /\
  (~ (sequence (current c) = toSequence /\ desiredRound (current c) = toRound) ->
   handleTimeoutAndMoveToNextRound env (mkView (Some toRound) (Some toSequence)) c
     = (Return None, c)).
Proof.
  unfold handleTimeoutAndMoveToNextRound; cbn [Sequence Round].
  rewrite !bigCmp_eqb.
  destruct (Z.eqb_spec (sequence (current c)) toSequence);
    destruct (Z.eqb_spec (desiredRound (current c)) toRound);
    cbn; split; intros H; try reflexivity; tauto.
Qed.

(** C10.  A message that [handleMsg] classifies as a future message
    (future sequence, vote before a proposal was accepted, or round
    above the desired round) and whose sender is the engine's own
    address is answered with the future-message signal and is not
    stored: the engine, backlog included, is left as it was.  The same
    message from any other address leaves everything but the backlog as
    it was. *)
Theorem own_future_message_not_stored (c : core W) payload msg vRound vSequence :
  accepted env c payload msg vRound vSequence ->
  classifiedFuture c msg vRound vSequence ->
  (MsgAddress msg = address c ->
   handleMsg env payload c = (Return (Some errFutureMessage), c)) /\
  (MsgAddress msg <> address c ->
   exists c', handleMsg env payload c = (Return (Some errFutureMessage), c') /\
              backlog c' = Backlog.store msg (backlog c) /\
              current c' = current c /\ address c' = address c /\
              world c' = world c).
Proof.
  intros Hacc Hfut.
  rewrite (classified_future_step env c payload msg vRound vSequence Hacc Hfut).
  split.
  - intros ->. now rewrite address_eqb_refl.
  - intros Hne. rewrite (address_eqb_neq _ _ Hne). cbn [negb].
    exists (backlogStore msg c). repeat split.
Qed.

End Claims.

(** ** Quorum *)

Section Quorum.
Import istanbul.

(** C9.  For a validator set of size n = 3f+1 the quorum size is the
    ceiling of 2n/3, that is the least q with 3q >= 2n, and it equals
    2f+1. *)
Theorem quorumSize_3f1 (vs : ValidatorSet) (f : Z) :
  0 <= f ->
  Size vs = 3 * f + 1 ->
  quorumSize vs = 2 * f + 1 /\
  2 * Size vs <= 3 * quorumSize vs /\
  3 * (quorumSize vs - 1) < 2 * Size vs.
Proof.
  intros Hf Hn. unfold quorumSize. rewrite Hn.
  replace (- (2 * (3 * f + 1))) with (1 + (- (2 * f + 1)) * 3) by ring.
  rewrite Z.div_add by lia. change (1 / 3) with 0. lia.
Qed.

End Quorum.

(** ** Concrete runs *)

Section Runs.
Import istanbul Engine Scenario.

Ltac accept := repeat split; cbn; congruence.

Lemma round_assertion_panics_witness :
  round (mkRoundState StateAcceptRequest 1 1 5 validators)
    <= desiredRound (mkRoundState StateAcceptRequest 1 1 5 validators) /\
  handleMsg envNoLast [x0d] (engine StatePreprepared 1 0 5)
    = (Panic (RoundMismatch 1 0), engine StatePreprepared 1 0 5) /\
  handleEvents envNoLast [MessageEvent [x0d]; FinalCommittedEvent]
               (engine StatePreprepared 1 0 5)
    = (Panic (RoundMismatch 1 0), engine StatePreprepared 1 0 5).
Proof.
  split.
  - apply (proj1 (round_assertion_panics envNoLast)).
    exists 5, validators,
      [Transitions.RoundChangeTrigger; Transitions.StartNewRound false].
    reflexivity.
  - apply (proj2 (round_assertion_panics envNoLast)
             (engine StatePreprepared 1 0 5) [x0d] (prepareFrom addrB 0 5) 0 5
             [FinalCommittedEvent]).
    + accept.
    + reflexivity.
    + cbn; lia.
    + cbn; lia.
Defined.

(** C1, as stated, fails: it has the panic of the round assertion stop
    the engine instance only.  With round 1 above desired
    round 0 the panic raised for one message is the outcome of the whole
    event loop; the loop neither recovers nor handles the event that
    follows, which by itself would have been handled. *)
Lemma round_assertion_not_contained :
  handleEvents envNoLast [MessageEvent [x0d]; FinalCommittedEvent]
               (engine StatePreprepared 1 0 5)
    = (Panic (RoundMismatch 1 0), engine StatePreprepared 1 0 5) /\
  handleEvents envNoLast [FinalCommittedEvent] (engine StatePreprepared 1 0 5)
    = (Return None, ran 9 (engine StatePreprepared 1 0 5)).
Proof. split; reflexivity. Qed.

Lemma old_message_dispatch_witness :
  handleMsg (envLast 0 4) [x09] (engine StateAcceptRequest 0 0 5)
    = (Return None, engine StateAcceptRequest 0 0 5) /\
  handleMsg (envLast 0 4) [x0c] (engine StateAcceptRequest 0 0 5)
    = (Return (Some errOldMessage), engine StateAcceptRequest 0 0 5) /\
  handleMsg envNoLast [x0a] (engine StateAcceptRequest 0 0 5)
    = (Return (Some (ErrOther 3)), engine StateAcceptRequest 0 0 5) /\
  handleMsg (envLast 0 4) [x0a] (engine StateAcceptRequest 0 0 5)
    = (Return None, ran 5 (engine StateAcceptRequest 0 0 5)) /\
  handleMsg (envLast 1 4) [x0a] (engine StateAcceptRequest 0 0 5)
    = (Return (Some errOldMessage), engine StateAcceptRequest 0 0 5) /\
  handleMsg (envLast 0 4) [x0d] (engine StateAcceptRequest 0 1 5)
    = (Return (Some errOldMessage), engine StateAcceptRequest 0 1 5).
Proof.
  refine (conj _ (conj _ (conj _ (conj _ (conj _ _))))).
  - destruct (old_message_dispatch (envLast 0 4)
                (engine StateAcceptRequest 0 0 5) [x09]
                (preprepareFrom addrA 0 4) 0 4) as (Hpp & _ & _);
      [accept | cbn; lia |].
    destruct (Hpp _ eq_refl) as (Hlate & _). apply Hlate. reflexivity.
  - destruct (old_message_dispatch (envLast 0 4)
                (engine StateAcceptRequest 0 0 5) [x0c]
                (preprepareFrom addrB 0 4) 0 4) as (Hpp & _ & _);
      [accept | cbn; lia |].
    destruct (Hpp _ eq_refl) as (_ & Hother). apply Hother. reflexivity.
  - destruct (old_message_dispatch envNoLast
                (engine StateAcceptRequest 0 0 5) [x0a]
                (commitFrom addrB 0 4) 0 4) as (_ & Hcommit & _);
      [accept | cbn; lia |].
    destruct (Hcommit _ eq_refl) as (Herr & _). apply Herr. reflexivity.
  - destruct (old_message_dispatch (envLast 0 4)
                (engine StateAcceptRequest 0 0 5) [x0a]
                (commitFrom addrB 0 4) 0 4) as (_ & Hcommit & _);
      [accept | cbn; lia |].
    destruct (Hcommit _ eq_refl) as (_ & Hlast).
    destruct (Hlast _ 0 4 eq_refl eq_refl) as (Hsame & _).
    rewrite Hsame; [reflexivity | repeat split; lia].
  - destruct (old_message_dispatch (envLast 1 4)
                (engine StateAcceptRequest 0 0 5) [x0a]
                (commitFrom addrB 0 4) 0 4) as (_ & Hcommit & _);
      [accept | cbn; lia |].
    destruct (Hcommit _ eq_refl) as (_ & Hlast).
    destruct (Hlast _ 1 4 eq_refl eq_refl) as (_ & Hdiff).
    apply Hdiff. lia.
  - destruct (old_message_dispatch (envLast 0 4)
                (engine StateAcceptRequest 0 1 5) [x0d]
                (prepareFrom addrB 0 5) 0 5) as (_ & _ & Hother);
      [accept | cbn; lia |].
    apply Hother; cbn; congruence.
Defined.

(** C2, as stated, fails twice.  With the chain at the genesis block, a
    COMMIT whose view equals the view of the last subject is answered
    with the old-message error instead of being handed to the handler
    for commits of the previous sequence; and when the backend cannot
    read the last subject, an old COMMIT is answered with the backend's
    error, which is neither the old-message error nor one of the two
    exceptions. *)
Lemma old_commit_not_two_exceptions :
  (MsgView (commitFrom addrB 0 0) = Some (view 0 0) /\
   LastSubject (envLast 0 0) [] = inl (mkSubject (Some (view 0 0)) (repeat x00 32)) /\
   handleMsg (envLast 0 0) [x0b] (engine StateAcceptRequest 0 0 1)
     = (Return (Some errOldMessage), engine StateAcceptRequest 0 0 1) /\
   handleCheckedCommitForPreviousSequence (envLast 0 0) (commitFrom addrB 0 0)
     (mkCommittedSubject (mkSubject (Some (view 0 0)) (repeat x00 32)) [])
     (engine StateAcceptRequest 0 0 1)
     = (Return None, ran 5 (engine StateAcceptRequest 0 0 1))) /\
  handleMsg envNoLast [x0a] (engine StateAcceptRequest 0 0 5)
    = (Return (Some (ErrOther 3)), engine StateAcceptRequest 0 0 5).
Proof. repeat split. Qed.

Lemma future_sequence_buffered_witness :
  handleMsg envNoLast [x01] (engine StatePreprepared 0 0 5)
    = (Return (Some errFutureMessage),
       backlogStore (prepareFrom addrB 0 6) (engine StatePreprepared 0 0 5)) /\
  In (prepareFrom addrB 0 6)
     (fst (Backlog.updateState (view 0 6) StateAcceptRequest
             (backlog (backlogStore (prepareFrom addrB 0 6)
                         (engine StatePreprepared 0 0 5))))) /\
  handleMsg envNoLast [x02] (engine StatePreprepared 0 0 5)
    = (Return (Some errFutureMessage), engine StatePreprepared 0 0 5).
Proof.
  destruct (future_sequence_buffered envNoLast (engine StatePreprepared 0 0 5)
              [x01] (prepareFrom addrB 0 6) 0 6) as (Hother & _);
    [accept | cbn; lia |].
  destruct Hother as (Hrun & _ & _ & Hreplay); [cbn; congruence|].
  destruct (future_sequence_buffered envNoLast (engine StatePreprepared 0 0 5)
              [x02] (prepareFrom addrA 0 6) 0 6) as (_ & Hown);
    [accept | cbn; lia |].
  refine (conj Hrun (conj (Hreplay (Some 0) StateAcceptRequest) (Hown eq_refl))).
Defined.

(** C3, as stated, fails: a PREPARE for sequence 6 that carries the
    engine's own address reaches an engine at sequence 5, is answered
    with the future-message signal, and is not in the backlog
    afterwards. *)
Lemma own_future_sequence_not_buffered :
  MsgAddress (prepareFrom addrA 0 6) = address (engine StatePreprepared 0 0 5) /\
  fst (handleMsg envNoLast [x02] (engine StatePreprepared 0 0 5))
    = Return (Some errFutureMessage) /\
  ~ In (prepareFrom addrA 0 6)
       (backlog (snd (handleMsg envNoLast [x02] (engine StatePreprepared 0 0 5)))).
Proof. split; [reflexivity|]. split; [reflexivity|]. cbn. tauto. Qed.

Lemma future_round_buffered_witness :
  handleMsg envNoLast [x03] (engine StatePreprepared 0 0 5)
    = (Return (Some errFutureMessage),
       backlogStore (prepareFrom addrB 1 5) (engine StatePreprepared 0 0 5)) /\
  handleMsg envNoLast [x04] (engine StatePreprepared 0 0 5)
    = (Return (Some errFutureMessage), engine StatePreprepared 0 0 5) /\
  handleMsg envNoLast [x05] (engine StatePreprepared 0 0 5)
    = (Return None, ran 4 (engine StatePreprepared 0 0 5)) /\
  handleMsg envNoLast [x0e] (engine StateWaitingForNewRound 0 1 5)
    = (Return (Some errOldMessage), engine StateWaitingForNewRound 0 1 5).
Proof.
  destruct (future_round_buffered envNoLast (engine StatePreprepared 0 0 5)
              [x03] (prepareFrom addrB 1 5) 1 5) as (Hother & _);
    [accept | reflexivity | cbn; lia |].
  destruct (future_round_buffered envNoLast (engine StatePreprepared 0 0 5)
              [x04] (prepareFrom addrA 1 5) 1 5) as (Hown & _);
    [accept | reflexivity | cbn; lia |].
  destruct (future_round_buffered envNoLast (engine StatePreprepared 0 0 5)
              [x05] (roundChangeFrom addrB 3 5) 3 5) as (_ & Hrc & _);
    [accept | reflexivity | cbn; lia |].
  destruct (future_round_buffered envNoLast
              (engine StateWaitingForNewRound 0 1 5)
              [x0e] (roundChangeFrom addrB 0 5) 0 5) as (_ & _ & Hold);
    [accept | reflexivity | cbn; lia |].
  refine (conj _ (conj _ (conj _ _))).
  - apply Hother; cbn; [lia | congruence | congruence].
  - apply Hown; cbn; [lia | congruence | reflexivity].
  - rewrite Hrc; [reflexivity | cbn; lia | reflexivity].
  - apply Hold; [cbn; lia | reflexivity].
Defined.

(** C4, as stated, fails twice.  A PREPARE of the current sequence for
    round 1, above desired round 0, that carries the engine's own address
    is answered with the future-message signal and is not in the backlog
    afterwards.  And round ordering does matter for a ROUND-CHANGE: one
    of the current sequence for round 0, below desired round 1, is
    answered with the old-message error and not handed to its handler. *)
Lemma own_future_round_not_buffered :
  (MsgAddress (prepareFrom addrA 1 5) = address (engine StatePreprepared 0 0 5) /\
   fst (handleMsg envNoLast [x04] (engine StatePreprepared 0 0 5))
     = Return (Some errFutureMessage) /\
   ~ In (prepareFrom addrA 1 5)
        (backlog (snd (handleMsg envNoLast [x04] (engine StatePreprepared 0 0 5))))) /\
  (Code (roundChangeFrom addrB 0 5) = MsgRoundChange /\
   handleMsg envNoLast [x0e] (engine StateWaitingForNewRound 0 1 5)
     = (Return (Some errOldMessage), engine StateWaitingForNewRound 0 1 5) /\
   handleRoundChange envNoLast (roundChangeFrom addrB 0 5)
       (engine StateWaitingForNewRound 0 1 5)
     = (Return None, ran 4 (engine StateWaitingForNewRound 0 1 5))).
Proof.
  split.
  - split; [reflexivity|]. split; [reflexivity|]. cbn. tauto.
  - repeat split.
Qed.

Lemma early_vote_buffered_witness :
  handleMsg envNoLast [x06] (engine StateAcceptRequest 0 0 5)
    = (Return (Some errFutureMessage),
       backlogStore (commitFrom addrB 0 5) (engine StateAcceptRequest 0 0 5)) /\
  handleMsg envNoLast [x04] (engine StateWaitingForNewRound 0 1 5)
    = (Return (Some errFutureMessage), engine StateWaitingForNewRound 0 1 5).
Proof.
  destruct (early_vote_buffered envNoLast (engine StateAcceptRequest 0 0 5)
              [x06] (commitFrom addrB 0 5) 0 5) as (Hother & _);
    [accept | reflexivity | cbn; lia | cbn; lia
     | split; [right | left]; reflexivity |].
  destruct (early_vote_buffered envNoLast (engine StateWaitingForNewRound 0 1 5)
              [x04] (prepareFrom addrA 1 5) 1 5) as (_ & Hown);
    [accept | reflexivity | cbn; lia | cbn; lia
     | split; [left | right]; reflexivity |].
  split.
  - apply Hother. cbn; congruence.
  - apply Hown. reflexivity.
Defined.

(** C5, as stated, fails twice.  While the engine waits for round 1 of
    sequence 5, a PREPARE of sequence 5 for round 0 is answered with the
    old-message error and not buffered; and a PREPARE for round 1 that
    carries the engine's own address is answered with the
    future-message signal without being buffered. *)
Lemma early_vote_not_always_buffered :
  (handleMsg envNoLast [x0d] (engine StateWaitingForNewRound 0 1 5)
     = (Return (Some errOldMessage), engine StateWaitingForNewRound 0 1 5)) /\
  (fst (handleMsg envNoLast [x04] (engine StateWaitingForNewRound 0 1 5))
     = Return (Some errFutureMessage) /\
   ~ In (prepareFrom addrA 1 5)
        (backlog (snd (handleMsg envNoLast [x04]
                         (engine StateWaitingForNewRound 0 1 5))))).
Proof. split; [reflexivity|]. split; [reflexivity|]. cbn. tauto. Qed.

Lemma rejected_before_mutation_witness :
  handleMsg envNoLast [x07] (engine StatePreprepared 0 0 5)
    = (Return (Some ErrUnauthorizedAddress), engine StatePreprepared 0 0 5) /\
  handleMsg envNoLast [x08] (engine StatePreprepared 0 0 5)
    = (Return (Some errInvalidMessage), engine StatePreprepared 0 0 5).
Proof.
  split.
  - apply (proj1 (rejected_before_mutation envNoLast
                    (engine StatePreprepared 0 0 5) [x07]
                    (prepareFrom stranger 0 5) eq_refl)).
    reflexivity.
  - apply (proj2 (rejected_before_mutation envNoLast
                    (engine StatePreprepared 0 0 5) [x08]
                    (mkMessage addrB (BPrepare (mkSubject None (repeat x00 32))) [])
                    eq_refl)).
    + cbn; congruence.
    + left; reflexivity.
Defined.

Lemma timeout_moves_to_next_round_witness :
  handleTimeoutAndMoveToNextRound envNoLast (view 0 5)
      (engine StatePreprepared 0 0 5)
    = (Return None,
       mkCore (mkRoundState StateWaitingForNewRound 0 1 5 validators)
              addrA [] []) /\
  handleTimeoutAndMoveToNextRound envNoLast (view 0 4)
      (engine StatePreprepared 0 0 5)
    = (Return None, engine StatePreprepared 0 0 5).
Proof.
  split.
  - unfold view.
    rewrite (proj1 (timeout_moves_to_next_round envNoLast
                      (engine StatePreprepared 0 0 5) 0 5));
      [reflexivity | split; reflexivity].
  - apply (proj2 (timeout_moves_to_next_round envNoLast
                    (engine StatePreprepared 0 0 5) 0 4)).
    cbn; lia.
Defined.

Lemma quorumSize_3f1_witness : quorumSize validators = 3.
Proof.
  apply (proj1 (quorumSize_3f1 validators 1 ltac:(lia) eq_refl)).
Defined.

Lemma own_future_message_not_stored_witness :
  handleMsg envNoLast [x04] (engine StateWaitingForNewRound 0 1 5)
    = (Return (Some errFutureMessage), engine StateWaitingForNewRound 0 1 5) /\
  (exists c',
      handleMsg envNoLast [x03] (engine StatePreprepared 0 0 5)
        = (Return (Some errFutureMessage), c') /\
      backlog c' = [prepareFrom addrB 1 5]).
Proof.
  destruct (own_future_message_not_stored envNoLast
              (engine StateWaitingForNewRound 0 1 5) [x04]
              (prepareFrom addrA 1 5) 1 5) as (Hown & _).
  { accept. }
  { right. repeat split; cbn; try lia. left. split; [left | right]; reflexivity. }
  destruct (own_future_message_not_stored envNoLast
              (engine StatePreprepared 0 0 5) [x03]
              (prepareFrom addrB 1 5) 1 5) as (_ & Hother).
  { accept. }
  { right. repeat split; cbn; try lia. right. split; cbn; [congruence | lia]. }
  split.
  - apply Hown. reflexivity.
  - destruct Hother as (c' & Hrun & Hb & _); [cbn; congruence|].
    exists c'. split; [exact Hrun | exact Hb].
Defined.

End Runs.

(** ** Bytes and big-endian integers *)

Section BigEndian.
Import rlp.

Lemma byte_to_Z_range (b : byte) : 0 <= byte_to_Z b < 256.
Proof.
  unfold byte_to_Z. pose proof (Byte.to_N_bounded b) as H.
  split; [apply N2Z.is_nonneg|]. lia.
Qed.

Lemma byte_of_to_Z (b : byte) : byte_of_Z (byte_to_Z b) = b.
Proof.
  unfold byte_of_Z, byte_to_Z. now rewrite N2Z.id, Byte.of_to_N.
Qed.

Lemma byte_to_of_Z (z : Z) : 0 <= z < 256 -> byte_to_Z (byte_of_Z z) = z.
Proof.
  intros Hz. unfold byte_of_Z, byte_to_Z.
  destruct (Byte.of_N (Z.to_N z)) as [b|] eqn:E.
  - apply Byte.to_of_N in E. rewrite E. lia.
  - apply Byte.of_N_None_iff in E. lia.
Qed.

Lemma be_value_snoc (s : bytes) (b : byte) :
  be_value (s ++ [b]) = be_value s * 256 + byte_to_Z b.
Proof. unfold be_value. now rewrite fold_left_app. Qed.

Lemma be_value_rev (l : bytes) : be_value (rev l) = le_value l.
Proof.
  induction l as [|b l IH]; [reflexivity|].
  cbn [rev le_value]. rewrite be_value_snoc, IH. lia.
Qed.

Lemma le_bytes_value (fuel : nat) :
  forall n, 0 <= n < 2 ^ Z.of_nat fuel -> le_value (le_bytes fuel n) = n.
Proof.
  induction fuel as [|fuel IH]; intros n Hn.
  - cbn in *. lia.
  - cbn [le_bytes]. destruct (Z.leb_spec n 0) as [H0|Hpos]; [cbn; lia|].
    cbn [le_value]. rewrite byte_to_of_Z by (apply Z.mod_pos_bound; lia).
    rewrite IH.
    + pose proof (Z.div_mod n 256). lia.
    + rewrite Nat2Z.inj_succ, Z.pow_succ_r in Hn by lia.
      split; [apply Z.div_pos; lia|].
      apply Z.div_lt_upper_bound; lia.
Qed.

Lemma log2_fuel (n : Z) : 0 <= n -> n < 2 ^ Z.of_nat (S (Z.to_nat (Z.log2 n))).
Proof.
  intros Hn. rewrite Nat2Z.inj_succ, Z2Nat.id by apply Z.log2_nonneg.
  destruct (Z.eq_dec n 0) as [->|Hne]; [cbn; lia|].
  apply Z.log2_spec. lia.
Qed.

Lemma be_value_be_bytes (n : Z) : 0 <= n -> be_value (be_bytes n) = n.
Proof.
  intros Hn. unfold be_bytes. rewrite be_value_rev.
  apply le_bytes_value. split; [assumption | now apply log2_fuel].
Qed.

Lemma le_bytes_length (fuel : nat) :
  forall n k, 0 <= n < 256 ^ Z.of_nat k -> (length (le_bytes fuel n) <= k)%nat.
Proof.
  induction fuel as [|fuel IH]; intros n k Hn; [cbn; lia|].
  cbn [le_bytes]. destruct (Z.leb_spec n 0) as [H0|Hpos]; [cbn; lia|].
  destruct k as [|k]; [cbn in Hn; lia|].
  cbn [length]. apply le_n_S, IH.
  rewrite Nat2Z.inj_succ, Z.pow_succ_r in Hn by lia.
  split; [apply Z.div_pos; lia|].
  apply Z.div_lt_upper_bound; lia.
Qed.

Lemma be_bytes_length (n : Z) :
  0 <= n < 2 ^ 64 -> (length (be_bytes n) <= 8)%nat.
Proof.
  intros Hn. unfold be_bytes. rewrite length_rev.
  apply le_bytes_length. change (256 ^ Z.of_nat 8) with (2 ^ 64). exact Hn.
Qed.

(** The most significant digit is the last one, and it is not zero. *)
Lemma le_bytes_last (fuel : nat) :
  forall n, 0 < n < 2 ^ Z.of_nat fuel ->
            exists l b, le_bytes fuel n = l ++ [b] /\ byte_to_Z b <> 0.
Proof.
  induction fuel as [|fuel IH]; intros n Hn; [cbn in Hn; lia|].
  cbn [le_bytes]. destruct (Z.leb_spec n 0) as [H0|Hpos]; [lia|].
  destruct (Z.eq_dec (n / 256) 0) as [Hsmall|Hbig].
  - exists [], (byte_of_Z (n mod 256)).
    rewrite Hsmall. split.
    + destruct fuel; reflexivity.
    + rewrite byte_to_of_Z by (apply Z.mod_pos_bound; lia).
      pose proof (Z.div_mod n 256). lia.
  - destruct (IH (n / 256)) as (l & b & Hl & Hb).
    + rewrite Nat2Z.inj_succ, Z.pow_succ_r in Hn by lia.
      assert (0 <= n / 256) by (apply Z.div_pos; lia).
      split; [lia|]. apply Z.div_lt_upper_bound; lia.
    + exists (byte_of_Z (n mod 256) :: l), b. rewrite Hl. now split.
Qed.

Lemma be_bytes_head (n : Z) :
  0 < n -> exists b s, be_bytes n = b :: s /\ byte_to_Z b <> 0.
Proof.
  intros Hn. unfold be_bytes.
  destruct (le_bytes_last (S (Z.to_nat (Z.log2 n))) n) as (l & b & Hl & Hb).
  - split; [assumption | apply log2_fuel; lia].
  - exists b, (rev l). rewrite Hl, rev_app_distr. now split.
Qed.

Lemma be_bytes_zero (n : Z) : n <= 0 -> be_bytes n = [].
Proof.
  intros Hn. unfold be_bytes. cbn [le_bytes].
  now destruct (Z.leb_spec n 0); [|lia].
Qed.

Lemma be_bytes_canonical (n : Z) : leadingZero (be_bytes n) = false.
Proof.
  destruct (Z.le_gt_cases n 0) as [H0|Hpos].
  - now rewrite be_bytes_zero.
  - destruct (be_bytes_head n) as (b & s & -> & Hb); [lia|].
    cbn. now apply Z.eqb_neq.
Qed.

End BigEndian.

(** ** Decoding an encoded item *)

Section Items.
Import rlp.

(** Induction on items, with the hypothesis for every element of a
    list. *)
Lemma item_induction (P : item -> Prop) :
  (forall s, P (Str s)) ->
  (forall l, Forall P l -> P (List l)) ->
  forall i, P i.
Proof.
  intros HStr HList.
  fix IH 1. intros [s | l].
  - apply HStr.
  - apply HList. induction l as [|x l IHl]; constructor; [apply IH | exact IHl].
Qed.

Lemma takeBytes_app (s rest : bytes) :
  takeBytes (bytesLen s) (s ++ rest) = Some (s, rest).
Proof.
  unfold takeBytes, bytesLen. rewrite length_app, Nat2Z.id.
  replace (Z.of_nat (length s + length rest) <? Z.of_nat (length s)) with false
    by (symmetry; apply Z.ltb_ge; lia).
  rewrite firstn_app, Nat.sub_diag, firstn_all, firstn_O, app_nil_r.
  now rewrite skipn_app, Nat.sub_diag, skipn_all, skipn_O.
Qed.

Lemma bytesLen_nonneg (s : bytes) : 0 <= bytesLen s.
Proof. unfold bytesLen. lia. Qed.

Lemma bytesLen_app (s t : bytes) : bytesLen (s ++ t) = bytesLen s + bytesLen t.
Proof. unfold bytesLen. rewrite length_app. lia. Qed.

(** The size of a long form is read back. *)
Lemma readSize_be_bytes (len : Z) (rest : bytes) :
  55 < len ->
  readSize (bytesLen (be_bytes len)) (be_bytes len ++ rest) = Some (len, rest).
Proof.
  intros Hlen. unfold readSize. rewrite takeBytes_app, be_bytes_canonical.
  rewrite be_value_be_bytes by lia.
  now replace (len <=? 55) with false by (symmetry; apply Z.leb_gt; lia).
Qed.

Lemma be_bytes_size (len : Z) :
  55 < len < 2 ^ 64 -> 1 <= bytesLen (be_bytes len) <= 8.
Proof.
  intros Hlen. unfold bytesLen.
  pose proof (be_bytes_length len ltac:(lia)).
  destruct (be_bytes_head len ltac:(lia)) as (b & s & E & _).
  rewrite E in *. cbn [length] in *. lia.
Qed.

Lemma decode_step (fuel : nat) (b : byte) (rest : bytes) :
  decode (S fuel) (b :: rest) =
    let tag := byte_to_Z b in
    if tag <? 128 then Some (Str [b], rest)
    else if tag <? 184 then
      match takeBytes (tag - 128) rest with
      | Some (s, rest') => if singleLow s then None else Some (Str s, rest')
      | None => None
      end
    else if tag <? 192 then
      match readSize (tag - 183) rest with
      | Some (len, rest1) =>
          match takeBytes len rest1 with
          | Some (s, rest') => Some (Str s, rest')
          | None => None
          end
      | None => None
      end
    else
      match (if tag <? 248 then Some (tag - 192, rest)
             else readSize (tag - 247) rest) with
      | Some (len, rest1) =>
          match takeBytes len rest1 with
          | Some (payload, rest') =>
              match decodeList fuel payload with
              | Some items => Some (List items, rest')
              | None => None
              end
          | None => None
          end
      | None => None
      end.
Proof. reflexivity. Qed.

Lemma decodeList_step (fuel : nat) (payload : bytes) :
  payload <> [] ->
  decodeList (S fuel) payload =
    match decode fuel payload with
    | Some (x, rest) =>
        match decodeList fuel rest with
        | Some xs => Some (x :: xs)
        | None => None
        end
    | None => None
    end.
Proof. destruct payload; [congruence | reflexivity]. Qed.

(** What follows the head of a string or list of length [len]; [base] is
    128 for strings and 192 for lists. *)
Lemma header_short (base len : Z) (rest : bytes) :
  0 <= len <= 55 -> 0 <= base <= 192 ->
  exists b, header base len ++ rest = b :: rest /\ byte_to_Z b = base + len.
Proof.
  intros Hlen Hbase. unfold header.
  replace (len <=? 55) with true by (symmetry; apply Z.leb_le; lia).
  eexists; split; [reflexivity|]. apply byte_to_of_Z. lia.
Qed.

Lemma header_long (base len : Z) (rest : bytes) :
  55 < len < 2 ^ 64 -> 0 <= base <= 192 ->
  exists b, header base len ++ rest = b :: be_bytes len ++ rest
            /\ byte_to_Z b = base + 55 + bytesLen (be_bytes len).
Proof.
  intros Hlen Hbase. unfold header.
  replace (len <=? 55) with false by (symmetry; apply Z.leb_gt; lia).
  eexists; split; [reflexivity|]. apply byte_to_of_Z.
  pose proof (be_bytes_size len Hlen). unfold bytesLen in *. lia.
Qed.

Lemma decode_string (fuel : nat) (s rest : bytes) :
  bytesLen s < 2 ^ 64 ->
  decode (S fuel) (encodeString s ++ rest) = Some (Str s, rest).
Proof.
  intros Hfit. unfold encodeString.
  destruct (singleLow s) eqn:Hlow.
  - destruct s as [|b [|? ?]]; try discriminate. cbn [singleLow] in Hlow.
    cbn [app]. rewrite decode_step. cbv zeta. now rewrite Hlow.
  - pose proof (bytesLen_nonneg s) as Hnn.
    destruct (Z.le_gt_cases (bytesLen s) 55) as [Hshort|Hlong].
    + destruct (header_short 128 (bytesLen s) (s ++ rest)) as (b & E & Hb);
        [lia | lia |].
      rewrite <- app_assoc, E, decode_step. cbv zeta. rewrite Hb.
      replace (128 + bytesLen s <? 128) with false
        by (symmetry; apply Z.ltb_ge; lia).
      replace (128 + bytesLen s <? 184) with true
        by (symmetry; apply Z.ltb_lt; lia).
      replace (128 + bytesLen s - 128) with (bytesLen s) by lia.
      now rewrite takeBytes_app, Hlow.
    + destruct (header_long 128 (bytesLen s) (s ++ rest)) as (b & E & Hb);
        [lia | lia |].
      pose proof (be_bytes_size (bytesLen s) ltac:(lia)) as Hsize.
      rewrite <- app_assoc, E, decode_step. cbv zeta. rewrite Hb.
      replace (128 + 55 + bytesLen (be_bytes (bytesLen s)) <? 128) with false
        by (symmetry; apply Z.ltb_ge; lia).
      replace (128 + 55 + bytesLen (be_bytes (bytesLen s)) <? 184) with false
        by (symmetry; apply Z.ltb_ge; lia).
      replace (128 + 55 + bytesLen (be_bytes (bytesLen s)) <? 192) with true
        by (symmetry; apply Z.ltb_lt; lia).
      replace (128 + 55 + bytesLen (be_bytes (bytesLen s)) - 183)
        with (bytesLen (be_bytes (bytesLen s))) by lia.
      rewrite readSize_be_bytes by lia. now rewrite takeBytes_app.
Qed.

Lemma decode_list_head (fuel : nat) (payload rest : bytes) :
  bytesLen payload < 2 ^ 64 ->
  decode (S fuel) (header 192 (bytesLen payload) ++ payload ++ rest) =
    match decodeList fuel payload with
    | Some items => Some (List items, rest)
    | None => None
    end.
Proof.
  intros Hfit. pose proof (bytesLen_nonneg payload) as Hnn.
  destruct (Z.le_gt_cases (bytesLen payload) 55) as [Hshort|Hlong].
  - destruct (header_short 192 (bytesLen payload) (payload ++ rest))
      as (b & E & Hb); [lia | lia |].
    rewrite E, decode_step. cbv zeta. rewrite Hb.
    replace (192 + bytesLen payload <? 128) with false
      by (symmetry; apply Z.ltb_ge; lia).
    replace (192 + bytesLen payload <? 184) with false
      by (symmetry; apply Z.ltb_ge; lia).
    replace (192 + bytesLen payload <? 192) with false
      by (symmetry; apply Z.ltb_ge; lia).
    replace (192 + bytesLen payload <? 248) with true
      by (symmetry; apply Z.ltb_lt; lia).
    replace (192 + bytesLen payload - 192) with (bytesLen payload) by lia.
    now rewrite takeBytes_app.
  - destruct (header_long 192 (bytesLen payload) (payload ++ rest))
      as (b & E & Hb); [lia | lia |].
    pose proof (be_bytes_size (bytesLen payload) ltac:(lia)) as Hsize.
    rewrite E, decode_step. cbv zeta. rewrite Hb.
    replace (192 + 55 + bytesLen (be_bytes (bytesLen payload)) <? 128) with false
      by (symmetry; apply Z.ltb_ge; lia).
    replace (192 + 55 + bytesLen (be_bytes (bytesLen payload)) <? 184) with false
      by (symmetry; apply Z.ltb_ge; lia).
    replace (192 + 55 + bytesLen (be_bytes (bytesLen payload)) <? 192) with false
      by (symmetry; apply Z.ltb_ge; lia).
    replace (192 + 55 + bytesLen (be_bytes (bytesLen payload)) <? 248) with false
      by (symmetry; apply Z.ltb_ge; lia).
    replace (192 + 55 + bytesLen (be_bytes (bytesLen payload)) - 247)
      with (bytesLen (be_bytes (bytesLen payload))) by lia.
    rewrite readSize_be_bytes by lia. now rewrite takeBytes_app.
Qed.

Lemma header_nonempty (base len : Z) : header base len <> [].
Proof. unfold header. destruct (len <=? 55); discriminate. Qed.

Lemma encode_nonempty (i : item) : encode i <> [].
Proof.
  destruct i as [s | l]; cbn [encode].
  - unfold encodeString. destruct (singleLow s) eqn:E.
    + destruct s; [discriminate | congruence].
    + pose proof (header_nonempty 128 (bytesLen s)).
      destruct (header 128 (bytesLen s)); [congruence | discriminate].
  - pose proof (header_nonempty 192 (bytesLen (concat (map encode l)))).
    destruct (header 192 _); [congruence | discriminate].
Qed.

(** Decoding the encoding of an item gives the item back and leaves what
    follows it, with any fuel from [fuelFor] on. *)
Lemma decode_encode (i : item) :
  fits i ->
  forall fuel rest, (fuelFor i <= fuel)%nat ->
                    decode fuel (encode i ++ rest) = Some (i, rest).
Proof.
  induction i as [s | l IH] using item_induction; intros Hfit fuel rest Hfuel.
  - cbn in Hfuel. destruct fuel as [|fuel]; [lia|].
    cbn [encode]. now apply decode_string.
  - cbn [fits] in Hfit. destruct Hfit as (Hlen & Hall).
    cbn [fuelFor] in Hfuel. fold (fuelForList l) in Hfuel.
    destruct fuel as [|fuel]; [lia|].
    cbn [encode]. cbv zeta. rewrite <- app_assoc, decode_list_head by assumption.
    assert (Hl : forall fuel', (fuelForList l <= fuel')%nat ->
                 decodeList fuel' (concat (map encode l)) = Some l).
    { clear Hlen Hfuel fuel rest.
      induction l as [|x l IHl]; intros fuel' Hfuel'.
      - destruct fuel'; [cbn in Hfuel'; lia | reflexivity].
      - cbn [fuelForList fold_right] in Hfuel'. fold (fuelForList l) in Hfuel'.
        destruct fuel' as [|fuel']; [lia|].
        cbn [map concat].
        rewrite decodeList_step.
        2:{ pose proof (encode_nonempty x).
            destruct (encode x); [congruence | discriminate]. }
        inversion IH as [|? ? Hx Hrest]; subst.
        cbn [fold_right] in Hall. destruct Hall as (Hfx & Hfl).
        rewrite (Hx Hfx) by lia. rewrite IHl; [reflexivity | assumption | assumption | lia]. }
    rewrite Hl by lia. reflexivity.
Qed.

Lemma fuelFor_bound (i : item) : (fuelFor i <= 2 * length (encode i))%nat.
Proof.
  induction i as [s | l IH] using item_induction.
  - cbn [fuelFor]. pose proof (encode_nonempty (Str s)).
    destruct (encode (Str s)); [congruence | cbn [length]; lia].
  - cbn [fuelFor encode]. cbv zeta. fold (fuelForList l).
    assert (Hl : (fuelForList l <= 2 * length (concat (map encode l)) + 1)%nat).
    { induction l as [|x l IHl]; [cbn; lia|].
      inversion IH as [|? ? Hx Hrest]; subst.
      cbn [fuelForList fold_right map concat]. fold (fuelForList l).
      rewrite length_app. specialize (IHl Hrest).
      pose proof (encode_nonempty x).
      destruct (encode x) eqn:E; [congruence|]. cbn [length] in *. lia. }
    rewrite length_app.
    pose proof (header_nonempty 192 (bytesLen (concat (map encode l)))).
    destruct (header 192 _); [congruence | cbn [length]; lia].
Qed.

(** An item whose encoding is shorter than 2^64 bytes fits. *)
Lemma fits_of_length (i : item) : bytesLen (encode i) < 2 ^ 64 -> fits i.
Proof.
  induction i as [s | l IH] using item_induction; intros Hlen.
  - cbn [fits]. cbn [encode] in Hlen. unfold encodeString in Hlen.
    destruct (singleLow s); [assumption|].
    rewrite bytesLen_app in Hlen. pose proof (bytesLen_nonneg (header 128 (bytesLen s))).
    lia.
  - cbn [fits]. cbn [encode] in Hlen. cbv zeta in Hlen.
    rewrite bytesLen_app in Hlen.
    pose proof (bytesLen_nonneg (header 192 (bytesLen (concat (map encode l))))).
    split; [lia|].
    assert (Hp : bytesLen (concat (map encode l)) < 2 ^ 64) by lia.
    clear Hlen H. induction l as [|x l IHl]; [exact I|].
    inversion IH as [|? ? Hx Hrest]; subst.
    cbn [map concat] in Hp. rewrite bytesLen_app in Hp.
    pose proof (bytesLen_nonneg (encode x)).
    pose proof (bytesLen_nonneg (concat (map encode l))).
    cbn [fold_right]. split; [apply Hx; lia | apply IHl; [assumption | lia]].
Qed.

Lemma decodeItem_encode (i : item) :
  bytesLen (encode i) < 2 ^ 64 -> decodeItem (encode i) = Some i.
Proof.
  intros Hlen. unfold decodeItem.
  rewrite <- (app_nil_r (encode i)) at 2.
  rewrite decode_encode; [reflexivity | now apply fits_of_length | apply fuelFor_bound].
Qed.

End Items.

(** ** Decoding an encoded certificate *)

Section Certificates.
Import istanbul rlp Wire.

Lemma decodeUint64_encode (n : Z) :
  0 <= n < 2 ^ 64 -> decodeUint64 (encodeUint64 n) = Some n.
Proof.
  intros Hn. unfold decodeUint64, encodeUint64.
  rewrite be_bytes_canonical.
  pose proof (be_bytes_length n Hn) as Hlen.
  replace (Nat.ltb 8 (length (be_bytes n))) with false
    by (symmetry; apply Nat.ltb_ge; lia).
  now rewrite be_value_be_bytes by lia.
Qed.

Lemma decodeBigInt_encode (x : option Z) :
  nonNegative x = true ->
  exists i, encodeBigInt x = Some i /\ decodeBigInt i = Some (canonicalBigInt x).
Proof.
  destruct x as [z|]; cbn [nonNegative encodeBigInt canonicalBigInt]; intros Hz.
  - apply Z.leb_le in Hz.
    replace (z <? 0) with false by (symmetry; apply Z.ltb_ge; lia).
    eexists; split; [reflexivity|]. unfold decodeBigInt.
    now rewrite be_bytes_canonical, be_value_be_bytes.
  - eexists; split; reflexivity.
Qed.

Lemma decodeView_encode (v : View) :
  nonNegative (Round v) = true -> nonNegative (Sequence v) = true ->
  exists i, encodeView v = Some i /\ decodeView i = Some (canonicalView v).
Proof.
  intros Hr Hs. unfold encodeView.
  destruct (decodeBigInt_encode _ Hr) as (ir & -> & Dr).
  destruct (decodeBigInt_encode _ Hs) as (iq & -> & Ds).
  eexists; split; [reflexivity|]. unfold decodeView. now rewrite Dr, Ds.
Qed.

Lemma decodeArray_exact (n : nat) (s : bytes) :
  Nat.eqb (length s) n = true -> decodeArray n (Str s) = Some s.
Proof. intros H. unfold decodeArray. now rewrite H. Qed.

Lemma decodeMessage_encode (m : Message) :
  validMessage m = true ->
  decodeMessage (encodeMessage m) = Some (canonicalMessage m).
Proof.
  unfold validMessage. rewrite !andb_true_iff, Z.leb_le, Z.ltb_lt.
  intros ((Hlo & Hhi) & Haddr).
  unfold encodeMessage, decodeMessage.
  rewrite decodeUint64_encode by lia.
  now rewrite (decodeArray_exact _ _ Haddr).
Qed.

Lemma mapOption_map {A B : Type} (f : A -> B) (dec : B -> option A)
    (canon : A -> A) (ok : A -> bool) (l : list A) :
  (forall x, ok x = true -> dec (f x) = Some (canon x)) ->
  forallb ok l = true ->
  mapOption dec (map f l) = Some (map canon l).
Proof.
  intros Hf. induction l as [|x l IH]; cbn [forallb map mapOption];
    [reflexivity|].
  rewrite andb_true_iff. intros (Hx & Hl). now rewrite (Hf x Hx), (IH Hl).
Qed.

Lemma mapOption_roundtrip {A B : Type} (enc : A -> option B)
    (dec : B -> option A) (canon : A -> A) (ok : A -> bool) (l : list A) :
  (forall x, ok x = true ->
             exists i, enc x = Some i /\ dec i = Some (canon x)) ->
  forallb ok l = true ->
  exists items, mapOption enc l = Some items
                /\ mapOption dec items = Some (map canon l).
Proof.
  intros Hf. induction l as [|x l IH]; cbn [forallb map mapOption].
  - intros _. exists []. split; reflexivity.
  - rewrite andb_true_iff. intros (Hx & Hl).
    destruct (Hf x Hx) as (i & -> & Di).
    destruct (IH Hl) as (items & -> & Ditems).
    exists (i :: items). split; [reflexivity|].
    cbn [mapOption]. now rewrite Di, Ditems.
Qed.

Lemma decodePreparedCertificateV2_encode (pc : PreparedCertificateV2) :
  validPreparedCertificateV2 pc = true ->
  decodePreparedCertificateV2 (encodePreparedCertificateV2 pc)
    = Some (canonicalPreparedCertificateV2 pc).
Proof.
  unfold validPreparedCertificateV2. rewrite andb_true_iff. intros (Hh & Hms).
  unfold encodePreparedCertificateV2, decodePreparedCertificateV2.
  rewrite (decodeArray_exact _ _ Hh). unfold decodeSlice.
  now rewrite (mapOption_map encodeMessage decodeMessage canonicalMessage
                 validMessage _ decodeMessage_encode Hms).
Qed.

Lemma decodeRoundChangeRequest_encode (r : RoundChangeRequest) :
  validRoundChangeRequest r = true ->
  exists i, encodeRoundChangeRequest r = Some i
            /\ decodeRoundChangeRequest i = Some (canonicalRoundChangeRequest r).
Proof.
  unfold validRoundChangeRequest. rewrite !andb_true_iff.
  intros (((Haddr & Hr) & Hs) & Hpc).
  unfold encodeRoundChangeRequest.
  destruct (decodeView_encode _ Hr Hs) as (iv & -> & Dv).
  eexists; split; [reflexivity|]. unfold decodeRoundChangeRequest.
  rewrite (decodeArray_exact _ _ Haddr), Dv.
  now rewrite (decodePreparedCertificateV2_encode _ Hpc).
Qed.

Lemma decodeRoundChangeCertificateV2_encode (c : RoundChangeCertificateV2) :
  valid c = true ->
  exists i, encodeRoundChangeCertificateV2 c = Some i
            /\ decodeRoundChangeCertificateV2 i = Some (canonical c).
Proof.
  unfold valid. intros Hrs. unfold encodeRoundChangeCertificateV2.
  destruct (mapOption_roundtrip encodeRoundChangeRequest decodeRoundChangeRequest
              canonicalRoundChangeRequest validRoundChangeRequest _
              decodeRoundChangeRequest_encode Hrs) as (items & -> & Ditems).
  eexists; split; [reflexivity|].
  unfold decodeRoundChangeCertificateV2, decodeSlice. now rewrite Ditems.
Qed.

(** A value without absent fields is its own canonical form. *)
Lemma canonicalBytes_present (s : option bytes) :
  present s = true -> canonicalBytes s = s.
Proof. now destruct s. Qed.

Lemma canonicalBigInt_present (x : option Z) :
  present x = true -> canonicalBigInt x = x.
Proof. now destruct x. Qed.

Lemma map_canonical {A : Type} (canon : A -> A) (ok : A -> bool) (l : list A) :
  (forall x, ok x = true -> canon x = x) ->
  forallb ok l = true -> map canon l = l.
Proof.
  intros Hf. induction l as [|x l IH]; cbn [forallb map]; [reflexivity|].
  rewrite andb_true_iff. intros (Hx & Hl). now rewrite (Hf x Hx), (IH Hl).
Qed.

Lemma canonicalMessage_full (m : Message) :
  fullMessage m = true -> canonicalMessage m = m.
Proof.
  unfold fullMessage. rewrite andb_true_iff. intros (Hm & Hs).
  unfold canonicalMessage.
  rewrite (canonicalBytes_present _ Hm), (canonicalBytes_present _ Hs).
  now destruct m.
Qed.

Lemma canonicalPreparedCertificateV2_full (pc : PreparedCertificateV2) :
  fullPreparedCertificateV2 pc = true -> canonicalPreparedCertificateV2 pc = pc.
Proof.
  unfold fullPreparedCertificateV2. rewrite andb_true_iff. intros (Hp & Hms).
  unfold canonicalPreparedCertificateV2.
  rewrite (map_canonical _ _ _ canonicalMessage_full Hms).
  destruct pc as [h [ms|]]; [reflexivity | discriminate].
Qed.

Lemma canonicalRoundChangeRequest_full (r : RoundChangeRequest) :
  fullRoundChangeRequest r = true -> canonicalRoundChangeRequest r = r.
Proof.
  unfold fullRoundChangeRequest. rewrite !andb_true_iff.
  intros (((Hr & Hs) & Hpc) & Hsig).
  unfold canonicalRoundChangeRequest, canonicalView.
  rewrite (canonicalBigInt_present _ Hr), (canonicalBigInt_present _ Hs),
    (canonicalPreparedCertificateV2_full _ Hpc), (canonicalBytes_present _ Hsig).
  now destruct r as [a [vr vs] pc sig].
Qed.

Lemma canonical_full (c : RoundChangeCertificateV2) :
  full c = true -> canonical c = c.
Proof.
  unfold full. rewrite andb_true_iff. intros (Hp & Hrs).
  unfold canonical.
  rewrite (map_canonical _ _ _ canonicalRoundChangeRequest_full Hrs).
  destruct c as [[rs|]]; [reflexivity | discriminate].
Qed.

(** C8.  A round-change certificate that is a value of its Go types
    (20-byte addresses, 32-byte hashes, uint64 codes, counters that are
    not negative) is encoded, and decoding the bytes, when they are
    fewer than 2^64, gives the certificate in canonical form: equal to it
    in every field, except that an absent field (nil signature, nil
    message set, nil integer) comes back as the empty one.  A certificate
    without absent fields comes back as it was. *)
Theorem certificate_roundtrip (c : RoundChangeCertificateV2) :
  valid c = true ->
  exists bs, EncodeToBytes c = Some bs /\
             (bytesLen bs < 2 ^ 64 ->
              DecodeBytes bs = Some (canonical c) /\
              (full c = true -> DecodeBytes bs = Some c)).
Proof.
  intros Hvalid.
  destruct (decodeRoundChangeCertificateV2_encode c Hvalid) as (i & Henc & Hdec).
  exists (encode i). unfold EncodeToBytes. rewrite Henc.
  split; [reflexivity|]. intros Hlen.
  assert (Hback : DecodeBytes (encode i) = Some (canonical c)).
  { unfold DecodeBytes. now rewrite (decodeItem_encode i Hlen). }
  split; [exact Hback|].
  intros Hfull. now rewrite Hback, (canonical_full c Hfull).
Qed.

End Certificates.

Section WireRuns.
Import istanbul rlp Wire.

(** An absent signature, message set or integer comes back empty, not
    absent. *)
Example absent_fields_come_back_empty :
  DecodeBytes
    (encode (List [List [List [Str (repeat x00 20); List [Str []; Str [x02]];
                               List [Str (repeat xab 32); List []]; Str []]]]))
  = Some (mkRoundChangeCertificateV2
            (Some [mkRoundChangeRequest (repeat x00 20)
                     (mkView (Some 0) (Some 2))
                     (mkPreparedCertificateV2 (repeat xab 32) (Some []))
                     (Some [])]))
  /\ EncodeToBytes
       (mkRoundChangeCertificateV2
          (Some [mkRoundChangeRequest (repeat x00 20) (mkView None (Some 2))
                   (mkPreparedCertificateV2 (repeat xab 32) None) None]))
     = Some (encode (List [List [List [Str (repeat x00 20);
                                       List [Str []; Str [x02]];
                                       List [Str (repeat xab 32); List []];
                                       Str []]]])).
Proof. split; reflexivity. Qed.

Lemma certificate_roundtrip_witness :
  exists bs, EncodeToBytes dummyRoundChangeCertificateV2 = Some bs /\
             DecodeBytes bs = Some dummyRoundChangeCertificateV2.
Proof.
  destruct (certificate_roundtrip dummyRoundChangeCertificateV2 eq_refl)
    as (bs & Henc & Hdec).
  exists bs. split; [exact Henc|].
  assert (Hbs : bs = match EncodeToBytes dummyRoundChangeCertificateV2 with
                     | Some b => b
                     | None => []
                     end) by now rewrite Henc.
  apply Hdec; [|reflexivity].
  rewrite Hbs. vm_compute. reflexivity.
Defined.

End WireRuns.

(** ** More on the handlers of handler.go *)

Section Coverage.
Import istanbul Engine Scenario Dispatching.
Context {W : Type} (env : Collaborators W).

(** [handleMsg] either rejects the payload before it compares views, or
    the message is accepted for the comparison. *)
Lemma handleMsg_entry (c : core W) (payload : bytes) :
  (exists err, handleMsg env payload c = (Return (Some err), c)) \/
  (exists msg vRound vSequence, accepted env c payload msg vRound vSequence).
Proof.
  destruct (FromPayload env payload) as [msg|err] eqn:Hd.
  - destruct (snd (GetByAddress (validatorSet (current c)) (MsgAddress msg)))
      as [val|] eqn:Ha.
    + destruct (MsgView msg) as [[[vr|] [vs|]]|] eqn:Hv.
      * right. exists msg, vr, vs. repeat split; congruence.
      * left. eexists. apply missing_view_rejected with (msg := msg);
          [assumption | congruence |].
        right. eexists. split; [eassumption | now left].
      * left. eexists. apply missing_view_rejected with (msg := msg);
          [assumption | congruence |].
        right. eexists. split; [eassumption | now right].
      * left. eexists. apply missing_view_rejected with (msg := msg);
          [assumption | congruence |].
        right. eexists. split; [eassumption | now left].
      * left. eexists. apply missing_view_rejected with (msg := msg);
          [assumption | congruence | now left].
    + left. eexists. now apply unauthorized_rejected with (msg := msg).
  - left. exists err. unfold handleMsg. now rewrite Hd.
Qed.

Lemma view_trichotomy (c : core W) (vRound vSequence : Z) :
  (vSequence < sequence (current c) \/
   (vSequence = sequence (current c) /\ vRound < desiredRound (current c))) \/
  (sequence (current c) < vSequence \/
   (vSequence = sequence (current c) /\ desiredRound (current c) <= vRound)).
Proof. lia. Qed.

(** The ways in which [handleMsg] can end: with an error or nil and the
    engine as it was; with the future-message signal and the message of
    another sender stored; in a handler; or in one of its two panics. *)
Lemma handleMsg_cases (c : core W) (payload : bytes) :
  (exists e, handleMsg env payload c = (Return e, c)) \/
  (exists msg, FromPayload env payload = inl msg /\
               MsgAddress msg <> address c /\
               handleMsg env payload c
                 = (Return (Some errFutureMessage), backlogStore msg c)) \/
  (exists msg, FromPayload env payload = inl msg /\
               dispatched env msg c (handleMsg env payload c)) \/
  (desiredRound (current c) < round (current c) /\
   handleMsg env payload c
     = (Panic (RoundMismatch (round (current c)) (desiredRound (current c))), c)) \/
  (~ lastSubjectReadable env c /\
   handleMsg env payload c = (Panic NilDereference, c)).
Proof.
  destruct (handleMsg_entry c payload) as [(err & Herr) | (msg & vr & vs & Hacc)];
    [left; eauto|].
  assert (Hd : FromPayload env payload = inl msg) by apply Hacc.
  assert (Hstore :
    (exists e, (Return (Some errFutureMessage),
                if negb (address_eqb (MsgAddress msg) (address c))
                then backlogStore msg c else c) = (Return e, c)) \/
    (MsgAddress msg <> address c /\
     (Return (Some errFutureMessage),
      if negb (address_eqb (MsgAddress msg) (address c))
      then backlogStore msg c else c)
     = (Return (Some errFutureMessage), backlogStore msg c))).
  { destruct (address_eqb (MsgAddress msg) (address c)) eqn:E; cbn [negb].
    - left. eauto.
    - right. split; [|reflexivity]. intros Heq.
      rewrite Heq, address_eqb_refl in E. discriminate. }
  destruct (view_trichotomy c vr vs) as [Hold | Hnew].
  - rewrite (old_message_step env c payload msg vr vs Hacc Hold).
    destruct (Body msg) as [pp | sub | commit | rc | raw v] eqn:Hbody;
      try (left; eauto; fail).
    + destruct (fromProposerOfKnownBlock env c msg pp vr); left; eauto.
    + destruct (LastSubject env (world c)) as [lastSubject|err] eqn:Hlast;
        [|left; eauto].
      destruct (SubjectView lastSubject) as [lastView|] eqn:Hlv.
      * destruct (Cmp (mkView (Some vr) (Some vs)) lastView) as [k|] eqn:Hk.
        -- destruct (Sequence lastView) as [ls|] eqn:Hls.
           ++ destruct (negb (k =? 0)); [left; eauto|].
              destruct (ls =? 0); [left; eauto|].
              right; right; left. exists msg. split; [assumption|].
              right; right; right; right. exists commit. now split.
           ++ right; right; right; right. split; [|reflexivity].
              intros Hread. destruct (Hread _ Hlast) as (r & s0 & Hv).
              rewrite Hlv in Hv. injection Hv as ->. discriminate.
        -- right; right; right; right.
           split; [|now destruct (Sequence lastView)].
           intros Hread. destruct (Hread _ Hlast) as (r & s0 & Hv).
           rewrite Hlv in Hv. injection Hv as ->.
           rewrite Cmp_views in Hk. discriminate.
      * right; right; right; right. split; [|reflexivity].
        intros Hread. destruct (Hread _ Hlast) as (r & s0 & Hv). congruence.
  - rewrite (not_older_step env c payload msg vr vs Hacc Hnew).
    destruct (sequence (current c) <? vs).
    { destruct Hstore as [He | (Hne & Heq)];
        [left; exact He | right; left; exists msg; rewrite Heq; auto]. }
    destruct (Z.ltb_spec (desiredRound (current c)) (round (current c)));
      [right; right; right; left; now split|].
    destruct ((State_eqb (state (current c)) StateWaitingForNewRound
               || State_eqb (state (current c)) StateAcceptRequest)
              && (MsgCode_eqb (Code msg) MsgCommit
                  || MsgCode_eqb (Code msg) MsgPrepare)).
    { destruct Hstore as [He | (Hne & Heq)];
        [left; exact He | right; left; exists msg; rewrite Heq; auto]. }
    destruct (negb (MsgCode_eqb (Code msg) MsgRoundChange)
              && (desiredRound (current c) <? vr)).
    { destruct Hstore as [He | (Hne & Heq)];
        [left; exact He | right; left; exists msg; rewrite Heq; auto]. }
    destruct (Code msg); try (left; eauto; fail);
      right; right; left; exists msg; (split; [assumption|]);
      unfold dispatched; auto.
Qed.

(** X1.  Whatever the payload, [handleMsg] leaves the engine as it was,
    or stores exactly the decoded message of another sender in the
    backlog while answering with the future-message signal, or ends in
    one of the five handlers; it never touches the round state, the
    address or the rest of the engine by itself. *)
Theorem handleMsg_frame (c : core W) (payload : bytes) :
  snd (handleMsg env payload c) = c \/
  (exists msg, FromPayload env payload = inl msg /\
               MsgAddress msg <> address c /\
               handleMsg env payload c
                 = (Return (Some errFutureMessage), backlogStore msg c)) \/
  (exists msg, FromPayload env payload = inl msg /\
               dispatched env msg c (handleMsg env payload c)).
Proof.
  destruct (handleMsg_cases c payload)
    as [(e & ->) | [Hst | [Hh | [(_ & ->) | (_ & ->)]]]]; auto.
Qed.

(** X2.  In a state whose round is at most the desired round and with a
    readable last subject, [handleMsg] does not panic by itself: a panic
    that comes out of it is the panic of the handler it ended in. *)
Theorem handleMsg_panic_is_handlers (c c' : core W) (payload : bytes)
    (p : panic) :
  sound env c ->
  handleMsg env payload c = (Panic p, c') ->
  exists msg, FromPayload env payload = inl msg /\
              dispatched env msg c (Panic p, c').
Proof.
  intros (Hinv & Hread) Hrun.
  destruct (handleMsg_cases c payload)
    as [(e & He) | [(msg & _ & _ & Hst) | [(msg & Hd & Hh) |
        [(Hbad & _) | (Hno & _)]]]].
  - congruence.
  - congruence.
  - exists msg. split; [assumption|]. now rewrite <- Hrun.
  - lia.
  - contradiction.
Qed.

(** X3.  A message of the current sequence for the desired round, in a
    state whose round is at most the desired round, is handed to the
    handler of its code: a PRE-PREPARE in any state, a PREPARE or COMMIT
    once the state is neither AcceptRequest nor WaitingForNewRound; a
    message with any other code is answered with the invalid-message
    error and the engine is left as it was. *)
Theorem current_view_dispatch (c : core W) payload msg vRound vSequence :
  accepted env c payload msg vRound vSequence ->
  vSequence = sequence (current c) ->
  vRound = desiredRound (current c) ->
  round (current c) <= desiredRound (current c) ->
  (Code msg = MsgPreprepare ->
   handleMsg env payload c = handlePreprepare env msg c) /\
  (state (current c) <> StateWaitingForNewRound ->
   state (current c) <> StateAcceptRequest ->
   (Code msg = MsgPrepare ->
    handleMsg env payload c = handlePrepare env msg c) /\
   (Code msg = MsgCommit ->
    handleMsg env payload c = handleCommit env msg c)) /\
  (forall raw, Code msg = MsgUnknown raw ->
   handleMsg env payload c = (Return (Some errInvalidMessage), c)).
Proof.
  intros Hacc Hs Hr Hinv.
  rewrite (not_older_step env c payload msg vRound vSequence Hacc) by lia.
  replace (sequence (current c) <? vSequence) with false
    by (symmetry; apply Z.ltb_ge; lia).
  replace (desiredRound (current c) <? round (current c)) with false
    by (symmetry; apply Z.ltb_ge; lia).
  replace (desiredRound (current c) <? vRound) with false
    by (symmetry; apply Z.ltb_ge; lia).
  rewrite andb_false_r.
  split; [|split].
  - intros ->. cbn. now rewrite andb_false_r.
  - intros Hw Ha.
    assert (Hst : State_eqb (state (current c)) StateWaitingForNewRound
                  || State_eqb (state (current c)) StateAcceptRequest = false)
      by (destruct (state (current c)); cbn; congruence).
    rewrite Hst. cbn [andb]. split; intros ->; reflexivity.
  - intros raw ->. cbn. now rewrite andb_false_r.
Qed.

(** X4.  The resend handler sends the round-change message again exactly
    when the engine's sequence and desired round are those of the view
    the timer was set at; otherwise it leaves the engine as it was.  In
    both cases it returns nil. *)
Theorem resend_only_for_current_view (c : core W) (dvRound dvSequence : Z) :
  (sequence (current c) = dvSequence /\ desiredRound (current c) = dvRound ->
   handleResendRoundChangeEvent env (mkView (Some dvRound) (Some dvSequence)) c
     = (Return None, resendRoundChangeMessage env c)) /\
  (~ (sequence (current c) = dvSequence /\ desiredRound (current c) = dvRound) ->
   handleResendRoundChangeEvent env (mkView (Some dvRound) (Some dvSequence)) c
     = (Return None, c)).
Proof.
  unfold handleResendRoundChangeEvent; cbn [Sequence Round].
  rewrite !bigCmp_eqb.
  destruct (Z.eqb_spec (sequence (current c)) dvSequence);
    destruct (Z.eqb_spec (desiredRound (current c)) dvRound);
    cbn; split; intros H; try reflexivity; tauto.
Qed.

(** X5.  On a request event the loop keeps the request for later
    ([storeRequestMsg]) exactly when [handleRequest] answers with the
    future-message signal; any other answer, nil or error, is dropped and
    the loop goes on from the state the handler left. *)
Theorem request_stored_when_future (c c' : core W) (p : Proposal)
    (e : option error) :
  handleRequest env (mkRequest p) c = (Return e, c') ->
  (e = Some errFutureMessage ->
   handleEvent env (RequestEvent p) c
     = (Return None, storeRequestMsg env (mkRequest p) c')) /\
  (e <> Some errFutureMessage ->
   handleEvent env (RequestEvent p) c = (Return None, c')).
Proof.
  intros Hreq. cbn [handleEvent]. rewrite Hreq. split.
  - intros ->. reflexivity.
  - intros Hne. destruct e as [[ | | | | code]|]; try reflexivity. congruence.
Qed.

(** X6.  A backlog event is handled like the arrival of the payload of
    its message; when the payload cannot be produced the event is dropped
    and the engine is left as it was. *)
Theorem backlog_event_redelivers (c : core W) (msg : Message) :
  (forall payload, Payload env msg = inl payload ->
     handleEvent env (backlogEvent msg) c
       = handleEvent env (MessageEvent payload) c) /\
  (forall err, Payload env msg = inr err ->
     handleEvent env (backlogEvent msg) c = (Return None, c)).
Proof.
  split.
  - intros payload Hp. cbn [handleEvent]. now rewrite Hp.
  - intros err Hp. cbn [handleEvent]. now rewrite Hp.
Qed.

(** X7.  Once a channel is closed the loop returns: the events behind the
    close are never handled, whatever came before it. *)
Theorem handleEvents_stops_at_close (evs rest : list Event) :
  forall c : core W,
    handleEvents env (evs ++ ChannelClosed :: rest) c = handleEvents env evs c.
Proof.
  induction evs as [|ev evs IH]; intros c; [reflexivity|].
  destruct ev; cbn [app handleEvents]; try reflexivity;
    match goal with
    | |- context [handleEvent env ?e c] =>
        destruct (handleEvent env e c) as [[err|pn] c1]
    end; auto.
Qed.

(** A message event whose handling returns with the engine as it was
    does not show in the loop. *)
Lemma returned_unchanged_skipped (c : core W) payload e (evs : list Event) :
  handleMsg env payload c = (Return e, c) ->
  handleEvents env (MessageEvent payload :: evs) c = handleEvents env evs c.
Proof. intros H. cbn [handleEvents handleEvent]. now rewrite H. Qed.

(** X8.  A payload that does not decode, comes from a sender that is no
    validator, or has a nil view field does not influence the loop: the
    events after it are handled as if it had never arrived. *)
Theorem turned_down_message_skipped (c : core W) payload (evs : list Event) :
  turnedDown env c payload ->
  handleEvents env (MessageEvent payload :: evs) c = handleEvents env evs c.
Proof.
  intros [(err & Hd) | (msg & Hd & Hwhy)].
  - apply returned_unchanged_skipped with (e := Some err).
    unfold handleMsg. now rewrite Hd.
  - destruct (snd (GetByAddress (validatorSet (current c)) (MsgAddress msg)))
      as [val|] eqn:Ha.
    + destruct Hwhy as [Hnone | Hmiss]; [discriminate|].
      apply returned_unchanged_skipped with (e := Some errInvalidMessage).
      apply missing_view_rejected with (msg := msg);
        [assumption | congruence | assumption].
    + apply returned_unchanged_skipped with (e := Some ErrUnauthorizedAddress).
      now apply unauthorized_rejected with (msg := msg).
Qed.

(** X9.  A timer event, timeout or resend, that was set at another
    sequence or desired round than the engine now has does not influence
    the loop. *)
Theorem stale_timer_event_skipped (c : core W) (r s : Z) (evs : list Event) :
  ~ (sequence (current c) = s /\ desiredRound (current c) = r) ->
  handleEvents env
      (timeoutAndMoveToNextRoundEvent (mkView (Some r) (Some s)) :: evs) c
    = handleEvents env evs c /\
  handleEvents env (resendRoundChangeEvent (mkView (Some r) (Some s)) :: evs) c
    = handleEvents env evs c.
Proof.
  intros Hstale. cbn [handleEvents handleEvent].
  unfold handleTimeoutAndMoveToNextRound, handleResendRoundChangeEvent;
    cbn [Sequence Round].
  rewrite !bigCmp_eqb.
  destruct (Z.eqb_spec (sequence (current c)) s);
    destruct (Z.eqb_spec (desiredRound (current c)) r);
    cbn; try (split; reflexivity). tauto.
Qed.

Lemma backlogStore_sound (c : core W) (msg : Message) :
  sound env c -> sound env (backlogStore msg c).
Proof. intros (Hinv & Hread). split; [exact Hinv | exact Hread]. Qed.

(** With handlers that return and keep the engine sound, [handleMsg]
    returns and keeps the engine sound. *)
Lemma handleMsg_returns_sound (c : core W) (payload : bytes) :
  handlersReturn env -> sound env c ->
  returnsSound env (handleMsg env payload c).
Proof.
  intros Hh Hsound.
  destruct (handleMsg_cases c payload)
    as [(e & ->) | [(msg & _ & _ & ->) | [(msg & _ & Hd) |
        [(Hbad & _) | (Hno & _)]]]].
  - exists e, c. now split.
  - eexists _, _. split; [reflexivity | now apply backlogStore_sound].
  - destruct (Hh msg c Hsound) as (H1 & H2 & H3 & H4 & H5).
    destruct Hd as [-> | [-> | [-> | [-> | (commit & _ & ->)]]]]; auto.
  - destruct Hsound. lia.
  - destruct Hsound. contradiction.
Qed.

(** X10.  When the handlers behind [handleMsg] return and keep the engine
    sound (round at most desired round, last subject readable), no
    sequence of payloads makes the loop panic: started in a sound state
    it handles all of them and ends in a sound state. *)
Theorem loop_survives_messages (payloads : list bytes) :
  handlersReturn env ->
  forall c : core W, sound env c ->
    exists c', handleEvents env (map MessageEvent payloads) c = (Return None, c')
               /\ sound env c'.
Proof.
  intros Hh. induction payloads as [|payload payloads IH]; intros c Hsound.
  - exists c. now split.
  - cbn [map handleEvents handleEvent].
    destruct (handleMsg_returns_sound c payload Hh Hsound)
      as (e & c1 & -> & Hs1).
    apply IH. exact Hs1.
Qed.

(** X11.  The block whose author the old PRE-PREPARE branch asks for is
    the one before the proposed block, computed on uint64: for a proposal
    with number 0 the subtraction wraps, and the author of block
    2^64 - 1 is asked for. *)
Theorem old_preprepare_of_block_zero (c : core W) payload msg preprepare
    vRound vSequence :
  accepted env c payload msg vRound vSequence ->
  vSequence < sequence (current c) \/
  (vSequence = sequence (current c) /\ vRound < desiredRound (current c)) ->
  Body msg = BPreprepare preprepare ->
  Number (PreprepareProposal preprepare) = 0 ->
  handleMsg env payload c =
    if address_eqb
         (ValidatorAddress
            (selectProposer env
               (ParentBlockValidators env (world c) (PreprepareProposal preprepare))
               (AuthorForBlock env (world c) 18446744073709551615)
               (Uint64 vRound)))
         (MsgAddress msg)
       && HasBlock env (world c) (ProposalHash (PreprepareProposal preprepare)) 0
    then (Return None, c)
    else (Return (Some errOldMessage), c).
Proof.
  intros Hacc Hold Hbody Hzero.
  rewrite (old_message_step env c payload msg vRound vSequence Hacc Hold), Hbody.
  unfold fromProposerOfKnownBlock. rewrite Hzero. reflexivity.
Qed.

End Coverage.

(** ** Concrete runs of the handlers *)

Section CoverageRuns.
Import istanbul Engine Scenario Dispatching.

Ltac accept := repeat split; cbn; congruence.

Lemma handleMsg_panic_is_handlers_witness :
  exists msg,
    FromPayload (envWith (fun _ => inr (ErrOther 2)) (Return None)
                         (Panic NilDereference)) [x0d] = inl msg /\
    dispatched (envWith (fun _ => inr (ErrOther 2)) (Return None)
                        (Panic NilDereference))
               msg (engine StatePreprepared 0 0 5)
               (Panic NilDereference, ran 2 (engine StatePreprepared 0 0 5)).
Proof.
  apply (handleMsg_panic_is_handlers
           (envWith (fun _ => inr (ErrOther 2)) (Return None)
                    (Panic NilDereference))
           (engine StatePreprepared 0 0 5)
           (ran 2 (engine StatePreprepared 0 0 5)) [x0d] NilDereference).
  - split; [cbn; lia|]. intros lastSubject Hlast. discriminate Hlast.
  - reflexivity.
Defined.

Lemma current_view_dispatch_witness :
  handleMsg envNoLast [x09] (engine StateWaitingForNewRound 0 0 4)
    = (Return None, ran 1 (engine StateWaitingForNewRound 0 0 4)) /\
  handleMsg envNoLast [x0d] (engine StatePreprepared 0 0 5)
    = (Return None, ran 2 (engine StatePreprepared 0 0 5)) /\
  handleMsg envNoLast [x0a] (engine StatePrepared 0 0 4)
    = (Return None, ran 3 (engine StatePrepared 0 0 4)) /\
  handleMsg envExtra [x01] (engine StatePreprepared 0 0 5)
    = (Return (Some errInvalidMessage), engine StatePreprepared 0 0 5).
Proof.
  destruct (current_view_dispatch envNoLast (engine StateWaitingForNewRound 0 0 4)
              [x09] (preprepareFrom addrA 0 4) 0 4) as (Hpp & _ & _);
    [accept | reflexivity | reflexivity | cbn; lia |].
  destruct (current_view_dispatch envNoLast (engine StatePreprepared 0 0 5)
              [x0d] (prepareFrom addrB 0 5) 0 5) as (_ & Hvote5 & _);
    [accept | reflexivity | reflexivity | cbn; lia |].
  destruct (current_view_dispatch envNoLast (engine StatePrepared 0 0 4)
              [x0a] (commitFrom addrB 0 4) 0 4) as (_ & Hvote4 & _);
    [accept | reflexivity | reflexivity | cbn; lia |].
  destruct (current_view_dispatch envExtra (engine StatePreprepared 0 0 5)
              [x01] (mkMessage addrB (BUnknown 9 (Some (view 0 5))) []) 0 5)
    as (_ & _ & Hunknown);
    [accept | reflexivity | reflexivity | cbn; lia |].
  refine (conj _ (conj _ (conj _ _))).
  - rewrite Hpp; reflexivity.
  - destruct Hvote5 as (Hprepare & _); [cbn; congruence | cbn; congruence |].
    rewrite Hprepare; reflexivity.
  - destruct Hvote4 as (_ & Hcommit); [cbn; congruence | cbn; congruence |].
    rewrite Hcommit; reflexivity.
  - apply (Hunknown 9). reflexivity.
Defined.

Lemma resend_only_for_current_view_witness :
  handleResendRoundChangeEvent envNoLast (view 1 5)
      (engine StateWaitingForNewRound 0 1 5)
    = (Return None, ran 6 (engine StateWaitingForNewRound 0 1 5)) /\
  handleResendRoundChangeEvent envNoLast (view 0 5)
      (engine StateWaitingForNewRound 0 1 5)
    = (Return None, engine StateWaitingForNewRound 0 1 5).
Proof.
  split.
  - apply (proj1 (resend_only_for_current_view envNoLast
                    (engine StateWaitingForNewRound 0 1 5) 1 5)).
    split; reflexivity.
  - apply (proj2 (resend_only_for_current_view envNoLast
                    (engine StateWaitingForNewRound 0 1 5) 0 5)).
    cbn; lia.
Defined.

Lemma request_stored_when_future_witness :
  handleEvent (envWith (fun _ => inr (ErrOther 2))
                       (Return (Some errFutureMessage)) (Return None))
              (RequestEvent (block 6)) (engine StatePreprepared 0 0 5)
    = (Return None, ran 8 (ran 7 (engine StatePreprepared 0 0 5))) /\
  handleEvent (envWith (fun _ => inr (ErrOther 2))
                       (Return (Some errOldMessage)) (Return None))
              (RequestEvent (block 4)) (engine StatePreprepared 0 0 5)
    = (Return None, ran 7 (engine StatePreprepared 0 0 5)).
Proof.
  split.
  - apply (proj1 (request_stored_when_future
                    (envWith (fun _ => inr (ErrOther 2))
                             (Return (Some errFutureMessage)) (Return None))
                    (engine StatePreprepared 0 0 5)
                    (ran 7 (engine StatePreprepared 0 0 5)) (block 6)
                    (Some errFutureMessage) eq_refl)).
    reflexivity.
  - apply (proj2 (request_stored_when_future
                    (envWith (fun _ => inr (ErrOther 2))
                             (Return (Some errOldMessage)) (Return None))
                    (engine StatePreprepared 0 0 5)
                    (ran 7 (engine StatePreprepared 0 0 5)) (block 4)
                    (Some errOldMessage) eq_refl)).
    congruence.
Defined.

Lemma backlog_event_redelivers_witness :
  handleEvent (envWith (fun _ => inl [x0d]) (Return None) (Return None))
              (backlogEvent (prepareFrom addrB 0 5))
              (engine StatePreprepared 0 0 5)
    = (Return None, ran 2 (engine StatePreprepared 0 0 5)) /\
  handleEvent envNoLast (backlogEvent (prepareFrom addrB 0 5))
              (engine StatePreprepared 0 0 5)
    = (Return None, engine StatePreprepared 0 0 5).
Proof.
  split.
  - rewrite (proj1 (backlog_event_redelivers
                      (envWith (fun _ => inl [x0d]) (Return None) (Return None))
                      (engine StatePreprepared 0 0 5) (prepareFrom addrB 0 5))
               [x0d] eq_refl).
    reflexivity.
  - apply (proj2 (backlog_event_redelivers envNoLast
                    (engine StatePreprepared 0 0 5) (prepareFrom addrB 0 5))
             (ErrOther 2) eq_refl).
Defined.

Lemma turned_down_message_skipped_witness :
  handleEvents envNoLast [MessageEvent [x07]; FinalCommittedEvent]
               (engine StatePreprepared 0 0 5)
    = (Return None, ran 9 (engine StatePreprepared 0 0 5)) /\
  handleEvents envNoLast [MessageEvent [xff]; FinalCommittedEvent]
               (engine StatePreprepared 0 0 5)
    = (Return None, ran 9 (engine StatePreprepared 0 0 5)).
Proof.
  split.
  - rewrite (turned_down_message_skipped envNoLast
               (engine StatePreprepared 0 0 5) [x07] [FinalCommittedEvent]).
    + reflexivity.
    + right. exists (prepareFrom stranger 0 5).
      split; [reflexivity | left; reflexivity].
  - rewrite (turned_down_message_skipped envNoLast
               (engine StatePreprepared 0 0 5) [xff] [FinalCommittedEvent]).
    + reflexivity.
    + left. exists (ErrOther 1). reflexivity.
Defined.

Lemma stale_timer_event_skipped_witness :
  handleEvents envNoLast
      [timeoutAndMoveToNextRoundEvent (view 0 5); FinalCommittedEvent]
      (engine StateWaitingForNewRound 0 1 5)
    = (Return None, ran 9 (engine StateWaitingForNewRound 0 1 5)) /\
  handleEvents envNoLast
      [resendRoundChangeEvent (view 0 5); FinalCommittedEvent]
      (engine StateWaitingForNewRound 0 1 5)
    = (Return None, ran 9 (engine StateWaitingForNewRound 0 1 5)).
Proof.
  destruct (stale_timer_event_skipped envNoLast
              (engine StateWaitingForNewRound 0 1 5) 0 5 [FinalCommittedEvent])
    as (Htimeout & Hresend); [cbn; lia|].
  unfold view. split.
  - rewrite Htimeout. reflexivity.
  - rewrite Hresend. reflexivity.
Defined.

Lemma loop_survives_messages_witness :
  exists c',
    handleEvents envNoLast (map MessageEvent [[x07]; [x01]; [x0d]; [xff]])
                 (engine StatePreprepared 0 0 5) = (Return None, c')
    /\ sound envNoLast c'.
Proof.
  apply (loop_survives_messages envNoLast [[x07]; [x01]; [x0d]; [xff]]).
  - intros msg c (Hinv & Hread).
    assert (Hran : forall k, returnsSound envNoLast (Return None, ran k c)).
    { intros k. exists None, (ran k c). split; [reflexivity|].
      split; [exact Hinv|]. intros lastSubject Hlast. discriminate Hlast. }
    refine (conj (Hran 1) (conj (Hran 2) (conj (Hran 3) (conj (Hran 4) _)))).
    intros commit. apply (Hran 5).
  - split; [cbn; lia|]. intros lastSubject Hlast. discriminate Hlast.
Defined.

Lemma old_preprepare_of_block_zero_witness :
  handleMsg envExtra [x02] (engine StateAcceptRequest 0 0 1)
    = (Return None, engine StateAcceptRequest 0 0 1).
Proof.
  rewrite (old_preprepare_of_block_zero envExtra
             (engine StateAcceptRequest 0 0 1) [x02]
             (preprepareFrom addrA 0 0) (mkPreprepare (Some (view 0 0)) (block 0))
             0 0).
  - reflexivity.
  - accept.
  - cbn; lia.
  - reflexivity.
  - reflexivity.
Defined.

End CoverageRuns.
